(** * StataGen: the wizard, the variable taxonomy and the code-generation
      requests of [index.tsx]

    The React component [App] of [index.tsx] is embedded as a transition
    system.  Its hooks ([useState]) become the fields of a record, its two
    [async] functions are cut at their single [await] into the part that runs
    when the button is pressed and the part that runs when the exchange
    settles, and the controls that each screen renders become the events
    that are enabled in a state. *)

From Stdlib Require Import String Ascii List ZArith Bool Arith Lia.
From Stdlib Require Import Permutation.
From Stdlib Require PrimFloat.
Import ListNotations.

Local Open Scope string_scope.
Local Open Scope list_scope.

(** ** The JavaScript operations the component relies on *)

Module JS.

(** [ToBoolean] on a string: the empty string is the only falsy one. *)
Definition truthy (s : string) : bool :=
  match s with
  | EmptyString => false
  | String _ _ => true
  end.

(** [ToBoolean] on a value that is an array or [undefined]: an array is an
    object, hence truthy whatever its length. *)
Definition truthy_array {A} (a : option (list A)) : bool :=
  match a with
  | Some _ => true
  | None => false
  end.

(** [ToBoolean] on a value that is a string or [undefined]. *)
Definition truthy_opt (a : option string) : bool :=
  match a with
  | Some s => truthy s
  | None => false
  end.

(** [a || d] where [a] is a string or [undefined]. *)
Definition or_else (a : option string) (d : string) : string :=
  if truthy_opt a then match a with Some s => s | None => d end else d.

(** [Array.prototype.findIndex]; [None] stands for [-1]. *)
Fixpoint findIndex {A} (p : A -> bool) (l : list A) : option nat :=
  match l with
  | [] => None
  | a :: l' => if p a then Some 0 else option_map S (findIndex p l')
  end.

(** [Array.prototype.join], as ECMA-262 runs it: the result starts empty,
    and for each index [k] the separator is added when [k > 0], then the
    element. *)
Definition join_step (sep : string) (acc : nat * string) (x : string)
  : nat * string :=
  let (k, R) := acc in
  (S k, (if (0 <? k)%nat then R ++ sep else R) ++ x)%string.

Definition join (sep : string) (l : list string) : string :=
  snd (fold_left (join_step sep) l (0, EmptyString)).

(** [arr[index].f = v]: the object at [index] is replaced by its update. *)
Fixpoint set_at {A} (index : nat) (f : A -> A) (l : list A) : list A :=
  match l, index with
  | [], _ => []
  | a :: l', 0 => f a :: l'
  | a :: l', S i => a :: set_at i f l'
  end.

End JS.

(** ** Types *)

Inductive Role := Y | X | Control | Mechanism | Hetero | FixedEffect.

Definition Role_eqb (a b : Role) : bool :=
  match a, b with
  | Y, Y | X, X | Control, Control | Mechanism, Mechanism
  | Hetero, Hetero | FixedEffect, FixedEffect => true
  | _, _ => false
  end.

(** [interface VariableDef].  [ref] is the identity of the JavaScript object:
    [===] on two objects compares identities, not fields. *)
Record VariableDef := mkVariableDef {
  ref : nat;
  name : string;
  label : string;
  role : Role
}.

(** [interface CodeSection].  [code] receives [response.text], which is a
    string or [undefined], unchecked. *)
Record CodeSection := mkCodeSection {
  title : string;
  code : option string;
  explanation : string
}.

(** [interface AnalysisMethod]. *)
Module Method.
Record AnalysisMethod := mk { name : string; cmd : string }.
End Method.

(** The five tab ids, the keys of [generatedContent] and [analysisMethods]. *)
Module Tab.
Inductive id := basic | benchmark | robust | endo | hetero.

Definition eqb (a b : id) : bool :=
  match a, b with
  | basic, basic | benchmark, benchmark | robust, robust
  | endo, endo | hetero, hetero => true
  | _, _ => false
  end.

Definition key (t : id) : string :=
  match t with
  | basic => "basic"
  | benchmark => "benchmark"
  | robust => "robust"
  | endo => "endo"
  | hetero => "hetero"
  end.
End Tab.

(** [Record<string, CodeSection[]>] over the five keys. *)
Record Store := mkStore {
  basic : list CodeSection;
  benchmark : list CodeSection;
  robust : list CodeSection;
  endo : list CodeSection;
  hetero : list CodeSection
}.

(** [prev[activeTab]] *)
Definition get (g : Store) (t : Tab.id) : list CodeSection :=
  match t with
  | Tab.basic => basic g
  | Tab.benchmark => benchmark g
  | Tab.robust => robust g
  | Tab.endo => endo g
  | Tab.hetero => hetero g
  end.

(** [{ ...prev, [activeTab]: l }] *)
Definition put (g : Store) (t : Tab.id) (l : list CodeSection) : Store :=
  match t with
  | Tab.basic => mkStore l (benchmark g) (robust g) (endo g) (hetero g)
  | Tab.benchmark => mkStore (basic g) l (robust g) (endo g) (hetero g)
  | Tab.robust => mkStore (basic g) (benchmark g) l (endo g) (hetero g)
  | Tab.endo => mkStore (basic g) (benchmark g) (robust g) l (hetero g)
  | Tab.hetero => mkStore (basic g) (benchmark g) (robust g) (endo g) l
  end.

Inductive Step := step1 | step2 | step3.

(** ** Static configuration *)

(** [analysisMethods]: twelve methods for each tab. *)
Definition analysisMethods (t : Tab.id) : list Method.AnalysisMethod :=
  match t with
  | Tab.basic =>
    [
      Method.mk "描述性统计 (Detail)" "sum, detail";
      Method.mk "相关性矩阵 (Pearson)" "pwcorr";
      Method.mk "Spearman 相关性" "spearman";
      Method.mk "方差膨胀因子 (VIF)" "vif";
      Method.mk "单位根检验 (Panel)" "xtunitroot";
      Method.mk "正态性检验 (SW)" "swilk";
      Method.mk "异方差检验 (White)" "estat hettest";
      Method.mk "散点图矩阵" "graph matrix";
      Method.mk "核密度估计图" "kdensity";
      Method.mk "缺失值分析" "mdesc";
      Method.mk "极端值检测" "extremes";
      Method.mk "时间趋势图" "xtline" ]
  | Tab.benchmark =>
    [
      Method.mk "双向固定效应 (Two-way FE)" "reghdfe";
      Method.mk "混合 OLS (Pooled OLS)" "reg, r";
      Method.mk "随机效应模型 (RE)" "xtreg, re";
      Method.mk "逐步回归法 (Stepwise)" "stepwise";
      Method.mk "Logit 模型 (二值)" "logit";
      Method.mk "Probit 模型 (二值)" "probit";
      Method.mk "泊松回归 (计数)" "poisson";
      Method.mk "负二项回归 (计数)" "nbreg";
      Method.mk "Tobit 模型 (截断)" "tobit";
      Method.mk "PPML 回归 (引力模型)" "ppmlhdfe";
      Method.mk "高维固定效应 (HDFE)" "reghdfe";
      Method.mk "标准化系数回归" "reg, beta" ]
  | Tab.robust =>
    [
      Method.mk "替换被解释变量" "Replace Y";
      Method.mk "替换核心解释变量" "Replace X";
      Method.mk "改变样本容量 (子样本)" "Sub-sample";
      Method.mk "缩尾处理 (Winsorize 1%)" "winsor2";
      Method.mk "解释变量滞后一期" "L.X";
      Method.mk "改变聚类层级 (Cluster)" "vce(cluster)";
      Method.mk "排除特殊样本 (直辖市等)" "drop if";
      Method.mk "增加控制变量 (敏感性)" "Add Controls";
      Method.mk "安慰剂检验 (随机化)" "Placebo Test";
      Method.mk "分位数回归" "qreg";
      Method.mk "变换模型设定" "Model Spec";
      Method.mk "调整时间窗口" "Time Window" ]
  | Tab.endo =>
    [
      Method.mk "工具变量法 (2SLS)" "ivreg2";
      Method.mk "系统 GMM (System GMM)" "xtabond2";
      Method.mk "差分 GMM (Diff GMM)" "xtabond";
      Method.mk "双重差分 (DID)" "DID";
      Method.mk "多期双重差分" "Time-varying DID";
      Method.mk "事件研究法 (Event Study)" "Event Study";
      Method.mk "倾向得分匹配 (PSM)" "psmatch2";
      Method.mk "PSM-DID 结合" "PSM-DID";
      Method.mk "Heckman 样本选择模型" "heckman";
      Method.mk "断点回归 (RDD)" "rdrobust";
      Method.mk "合成控制法 (SCM)" "synth";
      Method.mk "Lewbel 异方差 IV" "ivreg2 (lewbel)" ]
  | Tab.hetero =>
    [
      Method.mk "分组回归检验" "Group Regression";
      Method.mk "交互项调节效应" "Interaction Term";
      Method.mk "组间系数差异检验" "Chow/Suest";
      Method.mk "经典中介效应 (三步法)" "Baron & Kenny";
      Method.mk "Sobel/Bootstrap 中介" "sgmediation";
      Method.mk "KHB 方法 (二值中介)" "khb";
      Method.mk "门槛效应模型" "xthreg";
      Method.mk "Oaxaca-Blinder 分解" "oaxaca";
      Method.mk "分位数异质性" "sqreg";
      Method.mk "空间溢出效应 (SAR/SEM)" "Spatial";
      Method.mk "调节中介 (Moderated Mediation)" "Mod-Med";
      Method.mk "非线性效应 (U型)" "c.X#c.X" ]
  end.

(** The options of the research-field [<select>]. *)
Definition fieldOptions : list string :=
  [ "发展经济学 (Development Economics)";
    "劳动经济学 (Labor Economics)";
    "公司金融 (Corporate Finance)";
    "环境经济学 (Environmental Economics)";
    "宏观经济学 (Macroeconomics)";
    "国际贸易 (International Trade)";
    "卫生经济学 (Health Economics)";
    "区域经济学 (Regional Economics)" ].

(** ** The component state: one field for each [useState] hook of [App] *)

Record State := mkState {
  apiKey : option string;
  step : Step;
  loading : bool;
  topic : string;
  field : string;
  controlCount : Z;
  heteroCount : Z;
  mechCount : Z;
  feCount : Z;
  variables : list VariableDef;
  activeTab : Tab.id;
  generatedContent : Store
}.

Definition initialState (key : option string) : State :=
  {| apiKey := key;
     step := step1;
     loading := false;
     topic := EmptyString;
     field := "发展经济学 (Development Economics)";
     controlCount := 4;
     heteroCount := 1;
     mechCount := 1;
     feCount := 2;
     variables := [];
     activeTab := Tab.basic;
     generatedContent := mkStore [] [] [] [] [] |}.

Definition setStep (v : Step) (s : State) : State :=
  mkState (apiKey s) v (loading s) (topic s) (field s) (controlCount s)
    (heteroCount s) (mechCount s) (feCount s) (variables s) (activeTab s)
    (generatedContent s).

Definition setLoading (v : bool) (s : State) : State :=
  mkState (apiKey s) (step s) v (topic s) (field s) (controlCount s)
    (heteroCount s) (mechCount s) (feCount s) (variables s) (activeTab s)
    (generatedContent s).

Definition setTopic (v : string) (s : State) : State :=
  mkState (apiKey s) (step s) (loading s) v (field s) (controlCount s)
    (heteroCount s) (mechCount s) (feCount s) (variables s) (activeTab s)
    (generatedContent s).

Definition setField (v : string) (s : State) : State :=
  mkState (apiKey s) (step s) (loading s) (topic s) v (controlCount s)
    (heteroCount s) (mechCount s) (feCount s) (variables s) (activeTab s)
    (generatedContent s).

Definition setControlCount (v : Z) (s : State) : State :=
  mkState (apiKey s) (step s) (loading s) (topic s) (field s) v
    (heteroCount s) (mechCount s) (feCount s) (variables s) (activeTab s)
    (generatedContent s).

Definition setHeteroCount (v : Z) (s : State) : State :=
  mkState (apiKey s) (step s) (loading s) (topic s) (field s) (controlCount s)
    v (mechCount s) (feCount s) (variables s) (activeTab s)
    (generatedContent s).

Definition setMechCount (v : Z) (s : State) : State :=
  mkState (apiKey s) (step s) (loading s) (topic s) (field s) (controlCount s)
    (heteroCount s) v (feCount s) (variables s) (activeTab s)
    (generatedContent s).

Definition setFeCount (v : Z) (s : State) : State :=
  mkState (apiKey s) (step s) (loading s) (topic s) (field s) (controlCount s)
    (heteroCount s) (mechCount s) v (variables s) (activeTab s)
    (generatedContent s).

Definition setVariables (v : list VariableDef) (s : State) : State :=
  mkState (apiKey s) (step s) (loading s) (topic s) (field s) (controlCount s)
    (heteroCount s) (mechCount s) (feCount s) v (activeTab s)
    (generatedContent s).

Definition setActiveTab (v : Tab.id) (s : State) : State :=
  mkState (apiKey s) (step s) (loading s) (topic s) (field s) (controlCount s)
    (heteroCount s) (mechCount s) (feCount s) (variables s) v
    (generatedContent s).

(** [setGeneratedContent(prev => f(prev))] *)
Definition setGeneratedContent (f : Store -> Store) (s : State) : State :=
  mkState (apiKey s) (step s) (loading s) (topic s) (field s) (controlCount s)
    (heteroCount s) (mechCount s) (feCount s) (variables s) (activeTab s)
    (f (generatedContent s)).

(** ** The world around the component *)

(** A request handed to [ai.models.generateContent].  The suggestion prompt
    is a fixed text with six holes; it is recorded by what fills them. *)
Inductive Request :=
| SuggestionRequest (topic field : string)
    (controlCount mechCount heteroCount feCount : Z)
| CodeRequest (prompt : string).

(** An awaited exchange, with what the rest of its [async] function still
    uses from the closure. *)
Inductive Call :=
| FetchCall
| GenerateCall (method : string) (tab : Tab.id).

(** How the awaited promise settles: it rejects with an error, or resolves
    with a response whose [text] is a string or [undefined]. *)
Inductive Response :=
| Rejected (e : string)
| Resolved (text : option string).

(** What [JSON.parse] makes of a non-empty response text, read at the type the
    [responseSchema] declares: an object whose optional [variables] is an
    array of [{name, label, role}].  [Throws] is a [SyntaxError] (or the
    [TypeError] of reading [.variables] off [null]); both are raised inside
    the same [try]. *)
Inductive Parsed :=
| Throws (e : string)
| Data (vars : option (list (string * string * Role))).

Record World := mkWorld {
  ui : State;
  inflight : list Call;
  sent : list Request;
  alerts : list string;
  console : list string
}.

Definition initial (key : option string) : World :=
  mkWorld (initialState key) [] [] [] [].

Definition on_ui (f : State -> State) (w : World) : World :=
  mkWorld (f (ui w)) (inflight w) (sent w) (alerts w) (console w).

Definition dispatch (c : Call) (r : Request) (w : World) : World :=
  mkWorld (ui w) (inflight w ++ [c]) (r :: sent w) (alerts w) (console w).

Definition alert (msg : string) (w : World) : World :=
  mkWorld (ui w) (inflight w) (sent w) (msg :: alerts w) (console w).

Definition console_error (e : string) (w : World) : World :=
  mkWorld (ui w) (inflight w) (sent w) (alerts w) (e :: console w).

(** ** Step 1 -> 2: [fetchVariables] *)

Definition failureNotice : string := "变量生成失败，请重试。".

(** Up to the [await]: the guard, [setLoading(true)], and the request. *)
Definition fetchVariables (w : World) : World :=
  let s := ui w in
  if negb (JS.truthy (topic s)) || negb (JS.truthy_opt (apiKey s)) then w
  else
    dispatch FetchCall
      (SuggestionRequest (topic s) (field s) (controlCount s) (mechCount s)
         (heteroCount s) (feCount s))
      (on_ui (setLoading true) w).

(** [JSON.parse] builds a new object for each element of the array. *)
Fixpoint objects_from (n : nat) (l : list (string * string * Role))
  : list VariableDef :=
  match l with
  | [] => []
  | (nm, lb, r) :: l' => mkVariableDef n nm lb r :: objects_from (S n) l'
  end.

(** [JSON.parse(response.text || "{}")]: [json] is what the parser returns
    on the text itself; an absent or empty text is replaced by the text of
    the empty object, which has no [variables]. *)
Definition parse_text (text : option string) (json : Parsed) : Parsed :=
  if JS.truthy_opt text then json else Data None.

(** The [catch] block. *)
Definition fetchVariables_catch (e : string) (w : World) : World :=
  alert failureNotice (console_error e w).

(** From the [await] on: the body of the [try], the [catch], the [finally]. *)
Definition fetchVariables_settled (r : Response) (json : Parsed) (w : World)
  : World :=
  let w' :=
    match r with
    | Rejected e => fetchVariables_catch e w
    | Resolved text =>
        match parse_text text json with
        | Throws e => fetchVariables_catch e w
        | Data vars =>
            if JS.truthy_array vars then
              match vars with
              | Some l =>
                  on_ui (setStep step2)
                    (on_ui (setVariables (objects_from 0 l)) w)
              | None => w
              end
            else w
        end
    end in
  on_ui (setLoading false) w'.

(** ** Step 3: [generateStataCode] *)

Definition nl : string := String "010"%char EmptyString.
Definition dq : string := String "034"%char EmptyString.

Definition has_role (r : Role) (v : VariableDef) : bool := Role_eqb (role v) r.

(** [variables.find(v => v.role === r)?.name || d] *)
Definition first_name (r : Role) (d : string) (vars : list VariableDef)
  : string :=
  JS.or_else (option_map name (find (has_role r) vars)) d.

(** [variables.filter(v => v.role === r).map(v => v.name).join(" ")] *)
Definition joined_names (r : Role) (vars : list VariableDef) : string :=
  JS.join " " (map name (filter (has_role r) vars)).

(** The template literal assigned to [prompt]. *)
Definition prompt_text
  (topic y x controls mechs heteros fes method subType : string) : string :=
  (nl ++
   "      你是一名精通 Stata 19 的经济学专家。" ++ nl ++
   "      " ++ nl ++
   "      研究主题: " ++ topic ++ nl ++
   "      " ++ nl ++
   "      变量定义:" ++ nl ++
   "      - 被解释变量 (Y): " ++ y ++ nl ++
   "      - 核心解释变量 (X): " ++ x ++ nl ++
   "      - 控制变量: " ++ controls ++ nl ++
   "      - 机制变量: " ++ mechs ++ nl ++
   "      - 异质性变量: " ++ heteros ++ nl ++
   "      - 固定效应变量 (Fixed Effects): " ++ fes ++ nl ++
   nl ++
   "      任务: 请编写用于 " ++ method ++ " (" ++ subType ++ ") 的 Stata 代码。" ++ nl ++
   "      " ++ nl ++
   "      关键要求:" ++ nl ++
   "      1. **假设数据已经导入并清洗完毕**：绝对不要生成 'clear', 'set obs', 'gen x = rnormal()' 或任何生成虚拟数据的代码。" ++ nl ++
   "      2. **直接写分析命令**：直接从数据声明或 global 定义开始，然后写 estimation commands。" ++ nl ++
   "      3. 必须使用上面提供的确切变量名。" ++ nl ++
   "      4. 如果是回归分析 (reghdfe/xtreg)，请正确使用固定效应变量 (absorb " ++ fes ++ ")。" ++ nl ++
   "      5. 使用标准的计量经济学命令 (如 reghdfe, ivreg2, esttab, sum, sgmediation 等)。" ++ nl ++
   "      6. 代码中必须包含清晰的中文注释 (以 * 开头)，解释每一步的经济学含义。" ++ nl ++
   "      7. 如果是回归分析，请包含 'esttab' 或 'outreg2' 命令来导出结果。" ++ nl ++
   "      8. 仅返回纯文本代码，不要包含 markdown 的反引号。" ++ nl ++
   "      9. 如果涉及" ++ dq ++ "安慰剂检验" ++ dq ++ "，请提供 permutation 代码框架或随机化处理变量的循环代码框架，不要生成假数据，而是对现有数据进行随机操作。" ++ nl ++
   "    ")%string.

Definition prompt_of (s : State) (method subType : string) : string :=
  let y := first_name Y "y" (variables s) in
  let x := first_name X "x" (variables s) in
  let controls := joined_names Control (variables s) in
  let mechs := joined_names Mechanism (variables s) in
  let heteros := joined_names Hetero (variables s) in
  let fes := joined_names FixedEffect (variables s) in
  prompt_text (topic s) y x controls mechs heteros fes method subType.

(** Up to the [await]: [setLoading(true)], the prompt, and the request.  The
    rest of the function keeps [method] and the [activeTab] of this render. *)
Definition generateStataCode (method subType : string) (w : World) : World :=
  let s := ui w in
  dispatch (GenerateCall method (activeTab s))
    (CodeRequest (prompt_of s method subType))
    (on_ui (setLoading true) w).

Definition newSection (method : string) (text : option string) : CodeSection :=
  {| title := method;
     code := text;
     explanation := ("Generated code for " ++ method ++ ".")%string |}.

(** From the [await] on. *)
Definition generateStataCode_settled
  (method : string) (tab : Tab.id) (r : Response) (w : World) : World :=
  let w' :=
    match r with
    | Resolved text =>
        on_ui
          (setGeneratedContent
             (fun prev => put prev tab (newSection method text :: get prev tab)))
          w
    | Rejected e => console_error e w
    end in
  on_ui (setLoading false) w'.

(** ** Step 2: the two inputs of a variable row *)

Definition same_object (a b : VariableDef) : bool := Nat.eqb (ref a) (ref b).

Definition with_name (value : string) (o : VariableDef) : VariableDef :=
  mkVariableDef (ref o) value (label o) (role o).

Definition with_label (value : string) (o : VariableDef) : VariableDef :=
  mkVariableDef (ref o) (name o) value (role o).

(** The [onChange] of the name input of row [v].  When [findIndex] gives
    [-1] the assignment to [newVars[-1].name] throws and [setVariables] is
    not reached. *)
Definition changeName (v : VariableDef) (value : string) (s : State) : State :=
  let newVars := variables s in
  match JS.findIndex (fun item => same_object item v) newVars with
  | Some index => setVariables (JS.set_at index (with_name value) newVars) s
  | None => s
  end.

(** The [onChange] of the label input of row [v]. *)
Definition changeLabel (v : VariableDef) (value : string) (s : State) : State :=
  let newVars := variables s in
  match JS.findIndex (fun item => same_object item v) newVars with
  | Some index => setVariables (JS.set_at index (with_label value) newVars) s
  | None => s
  end.

(** [groupByRole]: [variables.filter(v => v.role === role)], one bucket for
    each role of the list the review screen maps over. *)
Definition roleOrder : list Role :=
  [Y; X; Control; Mechanism; Hetero; FixedEffect].

Definition bucket (r : Role) (vars : list VariableDef) : list VariableDef :=
  filter (has_role r) vars.

(** ** Events: what the operator and the collaborator can do *)

Inductive Event :=
| ChangeTopic (value : string)
| ChangeField (value : string)
| ChangeControlCount (n : Z)
| ChangeFeCount (n : Z)
| ChangeMechCount (n : Z)
| ChangeHeteroCount (n : Z)
| ClickNext
| ChangeName (v : VariableDef) (value : string)
| ChangeLabel (v : VariableDef) (value : string)
| ClickReturn
| ClickConfirm
| ClickTab (t : Tab.id)
| ClickMethod (m : Method.AnalysisMethod)
| SuggestionSettled (i : nat) (r : Response) (json : Parsed)
| GenerationSettled (i : nat) (r : Response).

Definition Step_eqb (a b : Step) : bool :=
  match a, b with
  | step1, step1 | step2, step2 | step3, step3 => true
  | _, _ => false
  end.

Definition VariableDef_eqb (a b : VariableDef) : bool :=
  Nat.eqb (ref a) (ref b) && String.eqb (name a) (name b)
  && String.eqb (label a) (label b) && Role_eqb (role a) (role b).

Definition Method_eqb (a b : Method.AnalysisMethod) : bool :=
  String.eqb (Method.name a) (Method.name b)
  && String.eqb (Method.cmd a) (Method.cmd b).

(** The rows of the review screen: every bucket of [roleOrder] that is not
    empty shows its variables. *)
Definition rows (s : State) : list VariableDef :=
  flat_map (fun r => bucket r (variables s)) roleOrder.

(** An event can happen when the screen of the current step renders its
    control and the control is not disabled, or when the exchange it
    settles is in flight. *)
Definition enabled (w : World) (e : Event) : bool :=
  let s := ui w in
  match e with
  | ChangeTopic _ => Step_eqb (step s) step1
  | ChangeField value =>
      Step_eqb (step s) step1 && existsb (String.eqb value) fieldOptions
  | ChangeControlCount _ | ChangeFeCount _ | ChangeMechCount _
  | ChangeHeteroCount _ => Step_eqb (step s) step1
  | ClickNext =>
      Step_eqb (step s) step1
      && negb (negb (JS.truthy (topic s)) || loading s)
  | ChangeName v _ | ChangeLabel v _ =>
      Step_eqb (step s) step2 && existsb (VariableDef_eqb v) (rows s)
  | ClickReturn | ClickConfirm => Step_eqb (step s) step2
  | ClickTab _ => Step_eqb (step s) step3
  | ClickMethod m =>
      Step_eqb (step s) step3
      && existsb (Method_eqb m) (analysisMethods (activeTab s))
  | SuggestionSettled i _ _ =>
      match nth_error (inflight w) i with
      | Some FetchCall => true
      | _ => false
      end
  | GenerationSettled i _ =>
      match nth_error (inflight w) i with
      | Some (GenerateCall _ _) => true
      | _ => false
      end
  end.

Fixpoint remove_nth {A} (i : nat) (l : list A) : list A :=
  match l, i with
  | [], _ => []
  | _ :: l', 0 => l'
  | a :: l', S j => a :: remove_nth j l'
  end.

(** The exchange at position [i] is no longer awaited. *)
Definition settle (i : nat) (w : World) : World :=
  mkWorld (ui w) (remove_nth i (inflight w)) (sent w) (alerts w) (console w).

Definition handle (e : Event) (w : World) : World :=
  match e with
  | ChangeTopic value => on_ui (setTopic value) w
  | ChangeField value => on_ui (setField value) w
  | ChangeControlCount n => on_ui (setControlCount n) w
  | ChangeFeCount n => on_ui (setFeCount n) w
  | ChangeMechCount n => on_ui (setMechCount n) w
  | ChangeHeteroCount n => on_ui (setHeteroCount n) w
  | ClickNext => fetchVariables w
  | ChangeName v value => on_ui (changeName v value) w
  | ChangeLabel v value => on_ui (changeLabel v value) w
  | ClickReturn => on_ui (setStep step1) w
  | ClickConfirm => on_ui (setStep step3) w
  | ClickTab t => on_ui (setActiveTab t) w
  | ClickMethod m => generateStataCode (Method.name m) (Method.cmd m) w
  | SuggestionSettled i r json =>
      match nth_error (inflight w) i with
      | Some FetchCall => fetchVariables_settled r json (settle i w)
      | _ => w
      end
  | GenerationSettled i r =>
      match nth_error (inflight w) i with
      | Some (GenerateCall method tab) =>
          generateStataCode_settled method tab r (settle i w)
      | _ => w
      end
  end.

(** Worlds reachable from the first render by enabled events that satisfy
    [allowed]. *)
Inductive reachable_by (allowed : Event -> bool) (key : option string)
  : World -> Prop :=
| reach_initial : reachable_by allowed key (initial key)
| reach_event w e :
    reachable_by allowed key w ->
    allowed e = true ->
    enabled w e = true ->
    reachable_by allowed key (handle e w).

Definition reachable : option string -> World -> Prop :=
  reachable_by (fun _ => true).

(** Running a script of events, stopping at the first that is not enabled. *)
Fixpoint run (es : list Event) (w : World) : option World :=
  match es with
  | [] => Some w
  | e :: es' => if enabled w e then run es' (handle e w) else None
  end.

Definition is_return (e : Event) : bool :=
  match e with
  | ClickReturn => true
  | _ => false
  end.

Definition not_return (e : Event) : bool := negb (is_return e).

(** ** Notions the statements below are written with *)

(** The part of the state the operations are about: step, variables, topic,
    the four role counts, and the store. *)
Definition core (s : State)
  : Step * list VariableDef * string * (Z * Z * Z * Z) * Store :=
  (step s, variables s, topic s,
   (controlCount s, feCount s, mechCount s, heteroCount s),
   generatedContent s).

(** The outcomes the code takes for a failed suggestion exchange, on a reply
    of the declared type: the [catch] path (the exchange is rejected, the
    text does not parse) and a reply without [variables].  A reply with a
    list, even an empty one, is not among them: the code takes it as a
    success. *)
Definition suggestion_fails (r : Response) (json : Parsed) : bool :=
  match r with
  | Rejected _ => true
  | Resolved text =>
      match parse_text text json with
      | Throws _ => true
      | Data vars => negb (JS.truthy_array vars)
      end
  end.

(** The outcome the code takes for a failed generation exchange: the [catch]
    path.  An exchange that resolves, even with the empty text, is not a
    failure for the code. *)
Definition generation_fails (r : Response) : bool :=
  match r with
  | Rejected _ => true
  | Resolved _ => false
  end.

(** The names of the variables of role [r], in taxonomy order. *)
Fixpoint role_names (r : Role) (vars : list VariableDef) : list string :=
  match vars with
  | [] => []
  | v :: vars' =>
      if Role_eqb (role v) r then name v :: role_names r vars'
      else role_names r vars'
  end.

(** Names separated by single spaces; nothing for no name. *)
Fixpoint spaced (l : list string) : string :=
  match l with
  | [] => EmptyString
  | a :: l' =>
      match l' with
      | [] => a
      | _ :: _ => (a ++ " " ++ spaced l')%string
      end
  end.

(** The line of the prompt that carries the fixed-effect names. *)
Definition fixedEffectsSlot : string :=
  "      - 固定效应变量 (Fixed Effects): ".

(** [s'] is [s] with the object [v], found between [pre] and [post],
    replaced by [v'], which has the role of [v]: in the sequence and in
    every role bucket [v'] stands where [v] stood, and nothing else moved. *)
Definition replaced_in_place
  (v v' : VariableDef) (pre post : list VariableDef) (s s' : State) : Prop :=
  variables s = pre ++ v :: post
  /\ s' = setVariables (pre ++ v' :: post) s
  /\ role v' = role v
  /\ forall r,
       bucket r (variables s)
       = bucket r pre ++ (if has_role r v then [v] else []) ++ bucket r post
       /\ bucket r (variables s')
          = bucket r pre ++ (if has_role r v then [v'] else [])
            ++ bucket r post.

(** While a suggestion exchange is awaited the wizard is in step 1 with
    [loading] set and nothing else in flight, and code exchanges are only
    ever in flight in step 3. *)
Definition serialized (w : World) : Prop :=
  (step (ui w) <> step3 -> forall c, In c (inflight w) -> c = FetchCall)
  /\ (In FetchCall (inflight w) ->
      step (ui w) = step1 /\ loading (ui w) = true
      /\ inflight w = [FetchCall]).

(** The events that only change the state: they issue no call. *)
Definition is_mutation (e : Event) : bool :=
  match e with
  | ChangeTopic _ | ChangeField _ | ChangeControlCount _ | ChangeFeCount _
  | ChangeMechCount _ | ChangeHeteroCount _ | ChangeName _ _
  | ChangeLabel _ _ | ClickReturn | ClickConfirm | ClickTab _ => true
  | ClickNext | ClickMethod _ | SuggestionSettled _ _ _
  | GenerationSettled _ _ => false
  end.

(** ** The reply as [JSON.parse] returns it, before any typing *)

(** A JSON value; a number is a double. *)
Inductive JSON :=
| JNull
| JBool (b : bool)
| JNumber (f : PrimFloat.float)
| JString (s : string)
| JArray (items : list JSON)
| JObject (fields : list (string * JSON)).

(** The value an object built by [JSON.parse] holds for [key]: when the text
    repeats a key, the last value stands. *)
Fixpoint lookup (key : string) (fields : list (string * JSON)) : option JSON :=
  match fields with
  | [] => None
  | (k, v) :: rest =>
      match lookup key rest with
      | Some later => Some later
      | None => if String.eqb k key then Some v else None
      end
  end.

(** [data.key], for a key that no prototype defines (the four read here are
    [variables], [name], [label] and [role]).  Reading a property off [null]
    throws a [TypeError]: the outer [None].  A boolean, a number, a string
    and an array have no such property, and an object may lack it:
    [undefined], the inner [None]. *)
Definition property (key : string) (data : JSON) : option (option JSON) :=
  match data with
  | JNull => None
  | JObject fields => Some (lookup key fields)
  | JBool _ | JNumber _ | JString _ | JArray _ => Some None
  end.

(** [ToBoolean]: [null], [false], [0], [-0], [NaN] and the empty string are
    falsy; every array and every object is truthy. *)
Definition truthy_value (v : JSON) : bool :=
  match v with
  | JNull => false
  | JBool b => b
  | JNumber f => negb (PrimFloat.eqb f PrimFloat.zero) && PrimFloat.eqb f f
  | JString s => JS.truthy s
  | JArray _ | JObject _ => true
  end.

(** [ToBoolean] on what a property read gives: [undefined] is falsy. *)
Definition truthy_property (v : option JSON) : bool :=
  match v with
  | Some v' => truthy_value v'
  | None => false
  end.

(** The role a role key stands for. *)
Definition role_of_key (key : string) : option Role :=
  if String.eqb key "Y" then Some Y
  else if String.eqb key "X" then Some X
  else if String.eqb key "Control" then Some Control
  else if String.eqb key "Mechanism" then Some Mechanism
  else if String.eqb key "Hetero" then Some Hetero
  else if String.eqb key "FixedEffect" then Some FixedEffect
  else None.

(** A value is a [VariableDef] when it is an object whose [name] and [label]
    are strings and whose [role] is one of the six keys. *)
Definition as_variable (v : JSON) : option (string * string * Role) :=
  match v with
  | JObject fields =>
      match lookup "name" fields, lookup "label" fields,
            lookup "role" fields with
      | Some (JString nm), Some (JString lb), Some (JString key) =>
          option_map (fun r => (nm, lb, r)) (role_of_key key)
      | _, _, _ => None
      end
  | _ => None
  end.

Fixpoint as_variables (items : list JSON)
  : option (list (string * string * Role)) :=
  match items with
  | [] => Some []
  | v :: items' =>
      match as_variable v, as_variables items' with
      | Some x, Some l => Some (x :: l)
      | _, _ => None
      end
  end.

(** A value is a [VariableDef[]] when it is an array of such objects. *)
Definition as_taxonomy (v : JSON) : option (list (string * string * Role)) :=
  match v with
  | JArray items => as_variables items
  | _ => None
  end.

(** What [JSON.parse] does with a text: it throws a [SyntaxError] or returns
    a value. *)
Inductive Parse :=
| SyntaxError (e : string)
| Value (data : JSON).

(** The [TypeError] of reading [.variables] off [null], as the console shows
    it; its wording is the engine's. *)
Definition nullAccessError : string :=
  "TypeError: Cannot read properties of null (reading 'variables')".

(** [JSON.parse(response.text || "{}")] on values: an absent or empty text
    is replaced by the text of the empty object. *)
Definition parse_value (text : option string) (parsed : Parse) : Parse :=
  if JS.truthy_opt text then parsed else Value (JObject []).

(** The hooks after an exchange has settled.  [setVariables] takes whatever
    value the reply holds: when that value is not a [VariableDef[]], every
    hook is as the world says except [variables], which holds the value. *)
Inductive Settled :=
| WellTyped (w : World)
| IllTyped (w : World) (held : JSON).

Definition world_of (o : Settled) : World :=
  match o with
  | WellTyped w => w
  | IllTyped w _ => w
  end.

(** [fetchVariables] from the [await] on, for any reply: [parsed] is what
    [JSON.parse] does with the text of the response.  [if (data.variables)]
    is [ToBoolean] of the property, whatever the value is. *)
Definition fetchVariables_settled_any
  (r : Response) (parsed : Parse) (w : World) : Settled :=
  match r with
  | Rejected e => WellTyped (on_ui (setLoading false) (fetchVariables_catch e w))
  | Resolved text =>
      match parse_value text parsed with
      | SyntaxError e =>
          WellTyped (on_ui (setLoading false) (fetchVariables_catch e w))
      | Value data =>
          match property "variables" data with
          | None =>
              WellTyped
                (on_ui (setLoading false)
                   (fetchVariables_catch nullAccessError w))
          | Some held =>
              if truthy_property held then
                match held with
                | Some v =>
                    match as_taxonomy v with
                    | Some l =>
                        WellTyped
                          (on_ui (setLoading false)
                             (on_ui (setStep step2)
                                (on_ui (setVariables (objects_from 0 l)) w)))
                    | None =>
                        IllTyped
                          (on_ui (setLoading false) (on_ui (setStep step2) w))
                          v
                    end
                | None => WellTyped (on_ui (setLoading false) w)
                end
              else WellTyped (on_ui (setLoading false) w)
          end
      end
  end.


(** The outcomes the code takes for a failed suggestion exchange, for any
    reply: the [catch] path (the exchange is rejected, the text does not
    parse, the parsed value is [null]) and a value without a truthy
    [variables]. *)
Definition suggestion_fails_any (r : Response) (parsed : Parse) : bool :=
  match r with
  | Rejected _ => true
  | Resolved text =>
      match parse_value text parsed with
      | SyntaxError _ => true
      | Value data =>
          match property "variables" data with
          | None => true
          | Some held => negb (truthy_property held)
          end
      end
  end.

(** ** Scripts used as concrete inputs *)

Definition sampleKey : option string := Some "key".

Definition descriptive : Method.AnalysisMethod :=
  Method.mk "描述性统计 (Detail)" "sum, detail".

(** The JSON text of a response that carries the variables [l]. *)
Definition role_text (r : Role) : string :=
  match r with
  | Y => "Y"
  | X => "X"
  | Control => "Control"
  | Mechanism => "Mechanism"
  | Hetero => "Hetero"
  | FixedEffect => "FixedEffect"
  end.

Definition quoted (s : string) : string := (dq ++ s ++ dq)%string.

Definition variable_text (v : string * string * Role) : string :=
  let '(nm, lb, r) := v in
  ("{" ++ quoted "name" ++ ":" ++ quoted nm ++ ","
   ++ quoted "label" ++ ":" ++ quoted lb ++ ","
   ++ quoted "role" ++ ":" ++ quoted (role_text r) ++ "}")%string.

Definition variables_text (l : list (string * string * Role)) : string :=
  ("{" ++ quoted "variables" ++ ":["
   ++ JS.join "," (map variable_text l) ++ "]}")%string.

(** The collaborator answers the suggestion call at position [i] with the
    variables [l]. *)
Definition answered (i : nat) (l : list (string * string * Role)) : Event :=
  SuggestionSettled i (Resolved (Some (variables_text l))) (Data (Some l)).

Definition oneVariable : list (string * string * Role) := [("gdp", "GDP", Y)].



(** Topic typed, suggestions requested. *)
Definition toAwaitingSuggestions : list Event :=
  [ChangeTopic "digital economy"; ClickNext].

(** ... the collaborator answers with one variable: the review screen. *)
Definition toReview : list Event :=
  toAwaitingSuggestions ++ [answered 0 oneVariable].

(** ... the operator confirms: the workbench. *)
Definition toWorkbench : list Event := toReview ++ [ClickConfirm].

Definition awaitingWorld : World :=
  fold_left (fun w e => handle e w) toAwaitingSuggestions (initial sampleKey).

Definition reviewWorld : World :=
  fold_left (fun w e => handle e w) toReview (initial sampleKey).

(** ... or returns to step 1. *)
Definition returnedWorld : World := handle ClickReturn reviewWorld.

(** A response with two control variables that agree in every field. *)
Definition twinControls : list (string * string * Role) :=
  [("gdp", "GDP", Y); ("pop", "", Control); ("pop", "", Control)].

Definition twinWorld : World :=
  fold_left (fun w e => handle e w)
    (toAwaitingSuggestions ++ [answered 0 twinControls])
    (initial sampleKey).

(** A taxonomy with two fixed effects. *)
Definition panelState : State :=
  setVariables
    [mkVariableDef 0 "gdp" "GDP" Y;
     mkVariableDef 1 "year" "Year" FixedEffect;
     mkVariableDef 2 "digital" "Digital index" X;
     mkVariableDef 3 "city" "City" FixedEffect]
    (setTopic "digital economy" (initialState sampleKey)).

(** ** What the screens show *)

(** [getRoleLabel]: the heading of a role bucket; any other text is returned
    as it is ([default]). *)
Definition getRoleLabel (role : string) : string :=
  if String.eqb role "Y" then "被解释变量 (Dependent Variable)"
  else if String.eqb role "X" then "核心解释变量 (Independent Variable)"
  else if String.eqb role "Control" then "控制变量 (Control Variables)"
  else if String.eqb role "Mechanism" then "机制变量 (Mechanism)"
  else if String.eqb role "Hetero" then "异质性变量 (Heterogeneity)"
  else if String.eqb role "FixedEffect" then "固定效应变量 (Fixed Effects)"
  else role.

(** The six role keys the review screen maps over. *)
Definition roleKeys : list string :=
  ["Y"; "X"; "Control"; "Mechanism"; "Hetero"; "FixedEffect"].

Definition is_null (v : JSON) : bool :=
  match v with
  | JNull => true
  | _ => false
  end.

(** [v.role === key] on an item that is not [null]: only a [role] that is
    the very text of the key is equal to it. *)
Definition has_key (key : string) (v : JSON) : bool :=
  match property "role" v with
  | Some (Some (JString r)) => String.eqb r key
  | _ => false
  end.

(** The item has a row: its [role] is one of the six keys. *)
Definition keyed (v : JSON) : bool :=
  existsb (fun key => has_key key v) roleKeys.

(** The review screen on whatever [setVariables] stored, which the code does
    not validate.  It maps over the six role keys and filters the stored
    value by each: [variables.filter] is a function only when the value is
    an array, and [v.role] throws on an item that is [null]; in both cases
    rendering throws ([None]).  A key whose bucket is empty renders nothing
    ([return null]), any other renders its heading and one row for each item
    of the bucket. *)
Definition reviewSections (held : JSON)
  : option (list (string * list JSON)) :=
  match held with
  | JArray items =>
      if existsb is_null items then None
      else
        Some
          (flat_map
             (fun key =>
                match filter (has_key key) items with
                | [] => []
                | roleVars => [(getRoleLabel key, roleVars)]
                end)
             roleKeys)
  | JNull | JBool _ | JNumber _ | JString _ | JObject _ => None
  end.

(** A variable of the declared type, as the parser builds it. *)
Definition json_of (v : VariableDef) : JSON :=
  JObject
    [("name", JString (name v));
     ("label", JString (label v));
     ("role", JString (role_text (role v)))].

(** An item as a reply may give it. *)
Definition item (nm lb key : string) : JSON :=
  JObject [("name", JString nm); ("label", JString lb); ("role", JString key)].

(** A reply with a role that is not one of the six, and an item without any
    role. *)
Definition instrumented : list JSON :=
  [item "gdp" "GDP" "Y";
   item "rainfall" "Rainfall" "Instrument";
   JObject [("name", JString "wage")];
   item "year" "Year" "FixedEffect"].

(** [text.replace(/c/g, by)] where the pattern is the one character [c] and
    the replacement [by] has no [$] in it. *)
Fixpoint replace_all (c : ascii) (by_ : string) (text : string) : string :=
  match text with
  | EmptyString => EmptyString
  | String a text' =>
      if Ascii.eqb a c then (by_ ++ replace_all c by_ text')%string
      else String a (replace_all c by_ text')
  end.

(** The first statement of [highlight]: the three replacements that turn the
    code into HTML text, in the order they are chained. *)
Definition escaped (text : string) : string :=
  replace_all ">" "&gt;" (replace_all "<" "&lt;" (replace_all "&" "&amp;" text)).

(** What one character becomes in HTML text. *)
Definition entity (a : ascii) : string :=
  if Ascii.eqb a "&" then "&amp;"
  else if Ascii.eqb a "<" then "&lt;"
  else if Ascii.eqb a ">" then "&gt;"
  else String a EmptyString.

Fixpoint entities (text : string) : string :=
  match text with
  | EmptyString => EmptyString
  | String a text' => (entity a ++ entities text')%string
  end.

(** Whether the character [c] occurs in [text]. *)
Fixpoint occurs (c : ascii) (text : string) : bool :=
  match text with
  | EmptyString => false
  | String a text' => Ascii.eqb a c || occurs c text'
  end.

(** The project name in the toolbar of the workbench:
    [topic.length > 20 ? topic.substring(0, 20) + '...' : topic].  A
    JavaScript string is a sequence of UTF-16 code units, and [length] and
    [substring] count those, so the topic is taken here as the list of its
    code units, [dot] being the unit of the full stop. *)
Definition projectTitle {unit : Type} (dot : unit) (topic : list unit)
  : list unit :=
  if (20 <? length topic)%nat then firstn 20 topic ++ [dot; dot; dot]
  else topic.

(** ** Counting what was asked and what was stored *)

Definition is_code_request (r : Request) : bool :=
  match r with
  | CodeRequest _ => true
  | SuggestionRequest _ _ _ _ _ _ => false
  end.

Definition is_generate_call (c : Call) : bool :=
  match c with
  | GenerateCall _ _ => true
  | FetchCall => false
  end.

Definition sections (g : Store) : nat :=
  length (basic g) + length (benchmark g) + length (robust g)
  + length (endo g) + length (hetero g).

(** Every section under a tab bears the name of a method of that tab, and
    so does every code exchange that is awaited. *)
Definition filed (w : World) : Prop :=
  (forall t sec,
      In sec (get (generatedContent (ui w)) t) ->
      exists m,
        In m (analysisMethods t)
        /\ title sec = Method.name m
        /\ explanation sec
           = ("Generated code for " ++ Method.name m ++ ".")%string)
  /\ (forall method tab,
        In (GenerateCall method tab) (inflight w) ->
        exists m, In m (analysisMethods tab) /\ method = Method.name m).


(** Clicking two methods one after the other. *)
Definition twoClicks (m1 m2 : Method.AnalysisMethod) (w : World) : World :=
  handle (ClickMethod m2) (handle (ClickMethod m1) w).

Definition noKeyWorld : World :=
  fold_left (fun w e => handle e w) [ChangeTopic "trade"; ClickNext]
    (initial None).

Definition workbenchWorld : World :=
  fold_left (fun w e => handle e w) toWorkbench (initial sampleKey).

Definition busyWorkbench : World :=
  handle (ClickMethod descriptive) workbenchWorld.

(** A method is clicked in the first tab, the operator moves to the third,
    and then the exchange resolves. *)
Definition movedTabWorld : World :=
  fold_left (fun w e => handle e w)
    (toWorkbench
     ++ [ClickMethod descriptive; ClickTab Tab.robust;
         GenerationSettled 0 (Resolved (Some "sum gdp, detail"))])
    (initial sampleKey).

Definition is_suggestion_request (r : Request) : bool :=
  negb (is_code_request r).

Definition is_fetch_call (c : Call) : bool := negb (is_generate_call c).

(** * Properties *)

(** ** Basic facts *)

Lemma Step_eqb_eq (a b : Step) : Step_eqb a b = true <-> a = b.
Proof. destruct a, b; simpl; split; congruence. Qed.

Lemma Role_eqb_eq (a b : Role) : Role_eqb a b = true <-> a = b.
Proof. destruct a, b; simpl; split; congruence. Qed.

Lemma Tab_eqb_eq (a b : Tab.id) : Tab.eqb a b = true <-> a = b.
Proof. destruct a, b; simpl; split; congruence. Qed.

Lemma get_put_same (g : Store) (t : Tab.id) (l : list CodeSection) :
  get (put g t l) t = l.
Proof. destruct t; reflexivity. Qed.

Lemma get_put_other (g : Store) (t c : Tab.id) (l : list CodeSection) :
  c <> t -> get (put g t l) c = get g c.
Proof. destruct t, c; simpl; congruence. Qed.

Lemma run_reachable_by (allowed : Event -> bool) (key : option string)
  (es : list Event) :
  forallb allowed es = true ->
  forall w w',
    reachable_by allowed key w -> run es w = Some w' ->
    reachable_by allowed key w'.
Proof.
  induction es as [|e es IH]; simpl; intros Hall w w' Hw Hrun.
  - now inversion Hrun; subst.
  - apply andb_prop in Hall. destruct Hall as [Ha Hall].
    destruct (enabled w e) eqn:He; [|discriminate].
    apply (IH Hall (handle e w)); [|exact Hrun].
    now apply reach_event.
Qed.

Lemma run_reachable (key : option string) (es : list Event) (w w' : World) :
  reachable key w -> run es w = Some w' -> reachable key w'.
Proof.
  apply run_reachable_by.
  induction es; simpl; auto.
Qed.

Lemma nth_error_snoc {A} (l : list A) (c : A) :
  nth_error (l ++ [c]) (length l) = Some c.
Proof. induction l; simpl; auto. Qed.

Lemma remove_nth_snoc {A} (l : list A) (c : A) :
  remove_nth (length l) (l ++ [c]) = l.
Proof. induction l; simpl; congruence. Qed.

(** The two ways a suggestion exchange can end. *)
Lemma fetchVariables_settled_cases (r : Response) (json : Parsed) (w : World) :
  (exists text l,
      r = Resolved (Some text) /\ text <> EmptyString /\ json = Data (Some l)
      /\ ui (fetchVariables_settled r json w)
         = setLoading false
             (setStep step2 (setVariables (objects_from 0 l) (ui w))))
  \/ ((forall text l,
         ~ (r = Resolved (Some text) /\ text <> EmptyString
            /\ json = Data (Some l)))
      /\ ui (fetchVariables_settled r json w) = setLoading false (ui w)).
Proof.
  destruct r as [e | [[|a text] | ]];
    try (right; split; [intros t l (H & Hne & _); inversion H; subst;
                        try now elim Hne | reflexivity]).
  destruct json as [e | [l | ]];
    try (right; split; [intros t l (_ & _ & H); discriminate | reflexivity]).
  left. exists (String a text), l. repeat split; congruence.
Qed.

(** ** What is in flight, and when *)

Lemma changeName_step (v : VariableDef) (value : string) (s : State) :
  step (changeName v value s) = step s
  /\ loading (changeName v value s) = loading s.
Proof. unfold changeName. destruct (JS.findIndex _ _); split; reflexivity. Qed.

Lemma changeLabel_step (v : VariableDef) (value : string) (s : State) :
  step (changeLabel v value s) = step s
  /\ loading (changeLabel v value s) = loading s.
Proof. unfold changeLabel. destruct (JS.findIndex _ _); split; reflexivity. Qed.

Lemma enabled_step2 (w : World) (b : bool) :
  Step_eqb (step (ui w)) step2 && b = true -> step (ui w) = step2.
Proof. intros H. apply andb_prop in H. now apply Step_eqb_eq. Qed.

Lemma enabled_step3 (w : World) (b : bool) :
  Step_eqb (step (ui w)) step3 && b = true -> step (ui w) = step3.
Proof. intros H. apply andb_prop in H. now apply Step_eqb_eq. Qed.

Lemma nth_error_remove_singleton {A} (a : A) (i : nat) (c : A) :
  nth_error [a] i = Some c -> remove_nth i [a] = [].
Proof. destruct i as [|[|i]]; simpl; congruence. Qed.

Lemma in_remove_nth {A} (i : nat) (l : list A) (c : A) :
  In c (remove_nth i l) -> In c l.
Proof.
  revert i. induction l as [|a l IH]; intros [|i]; simpl; auto.
  intros [H|H]; auto. right. now apply (IH i).
Qed.

Lemma reachable_serialized (key : option string) (w : World) :
  reachable key w -> serialized w.
Proof.
  induction 1 as [|w e _ [IHg IHf] _ Hen].
  { split; simpl; [intros _ c [] | intros []]. }
  assert (Hkeep : forall f : State -> State,
            (forall s, step (f s) = step s) ->
            (forall s, loading (f s) = loading s) ->
            serialized (on_ui f w)).
  { intros f Hs Hl. split; simpl; rewrite ?Hs, ?Hl; auto. }
  destruct e; simpl in Hen |- *;
    try (apply Hkeep; reflexivity).
  - (* ClickNext *)
    apply andb_prop in Hen. destruct Hen as [Hs Hen].
    apply Step_eqb_eq in Hs. apply negb_true_iff, orb_false_elim in Hen.
    destruct Hen as [_ Hl].
    unfold fetchVariables.
    destruct (negb (JS.truthy (topic (ui w)))
              || negb (JS.truthy_opt (apiKey (ui w)))); [now split|].
    assert (Hnil : inflight w = []).
    { destruct (inflight w) as [|c l] eqn:E; [reflexivity|].
      assert (c = FetchCall) by (apply IHg; [congruence | now left]).
      subst c. destruct IHf as (_ & Hl' & _); [now left | congruence]. }
    split; simpl; rewrite Hnil; simpl.
    + intros _ c [<-|[]]. reflexivity.
    + auto.
  - (* ChangeName *)
    apply Hkeep; intros s; apply changeName_step.
  - (* ChangeLabel *)
    apply Hkeep; intros s; apply changeLabel_step.
  - (* ClickReturn *)
    apply Step_eqb_eq in Hen.
    assert (Hno : ~ In FetchCall (inflight w)).
    { intros H. destruct (IHf H) as (H1 & _). congruence. }
    split; simpl; [|intros H; now elim Hno].
    intros _. apply IHg. congruence.
  - (* ClickConfirm *)
    apply Step_eqb_eq in Hen.
    split; simpl; [intros H; now elim H|].
    intros H. destruct (IHf H) as (H1 & _). congruence.
  - (* ClickMethod *)
    apply enabled_step3 in Hen.
    split; simpl; [intros H; congruence|].
    intros H. apply in_app_or in H. destruct H as [H|[H|[]]]; [|discriminate].
    destruct (IHf H) as (H1 & _). congruence.
  - (* SuggestionSettled *)
    destruct (nth_error (inflight w) i) as [[|]|] eqn:E; try discriminate.
    assert (Hin : In FetchCall (inflight w)) by (eapply nth_error_In; eauto).
    destruct (IHf Hin) as (Hs & Hl & Hone).
    assert (Hnil : remove_nth i (inflight w) = []).
    { rewrite Hone in E |- *. now apply (nth_error_remove_singleton _ _ _ E). }
    split.
    + intros _ c Hc.
      replace (inflight (fetchVariables_settled r json (settle i w)))
        with (remove_nth i (inflight w)) in Hc.
      * rewrite Hnil in Hc. destruct Hc.
      * destruct r as [e|[text|]]; simpl; auto.
        unfold parse_text. destruct (JS.truthy_opt (Some text)); auto.
        destruct json as [e|[l|]]; auto.
    + intros Hc.
      replace (inflight (fetchVariables_settled r json (settle i w)))
        with (remove_nth i (inflight w)) in Hc.
      * rewrite Hnil in Hc. destruct Hc.
      * destruct r as [e|[text|]]; simpl; auto.
        unfold parse_text. destruct (JS.truthy_opt (Some text)); auto.
        destruct json as [e|[l|]]; auto.
  - (* GenerationSettled *)
    destruct (nth_error (inflight w) i) as [[|meth t]|] eqn:E;
      try discriminate.
    assert (Hs : step (ui w) = step3).
    { destruct (step (ui w)) eqn:Hs; auto;
        (assert (GenerateCall meth t = FetchCall)
          by (apply IHg; [congruence | eapply nth_error_In; eauto]);
         discriminate). }
    assert (Hno : ~ In FetchCall (inflight w)).
    { intros H. destruct (IHf H) as (H1 & _). congruence. }
    split.
    + intros H. elim H. destruct r; exact Hs.
    + intros H. elim Hno. apply (in_remove_nth i).
      destruct r; exact H.
Qed.

(** ** Suggestions: when the wizard advances *)

(** C9: [fetchVariables] with an empty topic returns at its guard: no request
    is dispatched and nothing is mutated, so the step stays 1 and the
    variables are what they were; the button that calls it is disabled. *)
Theorem fetchVariables_empty_topic (w : World) :
  topic (ui w) = EmptyString ->
  step (ui w) = step1 ->
  fetchVariables w = w
  /\ sent (fetchVariables w) = sent w
  /\ inflight (fetchVariables w) = inflight w
  /\ step (ui (fetchVariables w)) = step1
  /\ variables (ui (fetchVariables w)) = variables (ui w)
  /\ enabled w ClickNext = false.
Proof.
  intros Ht Hs.
  assert (E : fetchVariables w = w).
  { unfold fetchVariables. rewrite Ht. reflexivity. }
  rewrite E. repeat split; auto.
  unfold enabled. rewrite Ht, Hs. reflexivity.
Qed.

Lemma fetchVariables_empty_topic_witness :
  topic (ui (initial sampleKey)) = EmptyString
  /\ step (ui (initial sampleKey)) = step1
  /\ fetchVariables (initial sampleKey) = initial sampleKey
  /\ sent (fetchVariables (initial sampleKey)) = []
  /\ enabled (initial sampleKey) ClickNext = false.
Proof.
  split; [reflexivity|]. split; [reflexivity|].
  destruct (fetchVariables_empty_topic (initial sampleKey) eq_refl eq_refl)
    as (E & Hsent & _ & _ & _ & Hen).
  split; [exact E|]. split; [exact Hsent | exact Hen].
Defined.



(** The two ways a suggestion exchange can end, for any reply. *)
Lemma fetchVariables_settled_any_cases
  (r : Response) (parsed : Parse) (w : World) :
  (exists text data v,
      r = Resolved (Some text) /\ text <> EmptyString
      /\ parsed = Value data
      /\ property "variables" data = Some (Some v)
      /\ truthy_value v = true
      /\ match as_taxonomy v with
         | Some l =>
             fetchVariables_settled_any r parsed w
             = WellTyped
                 (on_ui (setLoading false)
                    (on_ui (setStep step2)
                       (on_ui (setVariables (objects_from 0 l)) w)))
         | None =>
             fetchVariables_settled_any r parsed w
             = IllTyped (on_ui (setLoading false) (on_ui (setStep step2) w)) v
         end)
  \/ ((forall text data v,
         ~ (r = Resolved (Some text) /\ text <> EmptyString
            /\ parsed = Value data
            /\ property "variables" data = Some (Some v)
            /\ truthy_value v = true))
      /\ exists w',
           fetchVariables_settled_any r parsed w = WellTyped w'
           /\ ui w' = setLoading false (ui w)).
Proof.
  destruct r as [e | [[|a text] | ]];
    try (right; split;
         [intros t d v (H & Hne & _); inversion H; subst; try now elim Hne
         | eexists; split; reflexivity]).
  destruct parsed as [e|data];
    [right; split;
     [intros t d v (_ & _ & H & _); discriminate
     | eexists; split; reflexivity]|].
  unfold fetchVariables_settled_any, parse_value. simpl JS.truthy_opt. cbv iota.
  destruct (property "variables" data) as [[v|]|] eqn:Hp.
  - simpl truthy_property. destruct (truthy_value v) eqn:Hv.
    + left. exists (String a text), data, v.
      repeat split; try congruence.
      destruct (as_taxonomy v); reflexivity.
    + right. split; [|eexists; split; reflexivity].
      intros t d v' (_ & _ & Hd & Hp' & Hv').
      inversion Hd; subst. congruence.
  - right. split; [|eexists; split; reflexivity].
    intros t d v' (_ & _ & Hd & Hp' & _). inversion Hd; subst. congruence.
  - right. split; [|eexists; split; reflexivity].
    intros t d v' (_ & _ & Hd & Hp' & _). inversion Hd; subst. congruence.
Qed.



(** ** Code generation: what is stored *)

(** C3, as the claim has it, fails twice.  A call that resolves with an empty
    text stores a section all the same, and a call that is rejected leaves
    no notice: its [catch] only writes to the console. *)
Lemma empty_generated_text_is_stored :
  option_map (fun w => get (generatedContent (ui w)) Tab.basic)
    (run (toWorkbench
          ++ [ClickMethod descriptive;
              GenerationSettled 0 (Resolved (Some EmptyString))])
       (initial sampleKey))
  = Some [newSection (Method.name descriptive) (Some EmptyString)]
  /\ option_map (fun w => (get (generatedContent (ui w)) Tab.basic, alerts w))
       (run (toWorkbench
             ++ [ClickMethod descriptive;
                 GenerationSettled 0 (Rejected "offline")])
          (initial sampleKey))
     = Some ([], []).
Proof. split; reflexivity. Qed.

(** C3, amended: when the exchange of a code-generation call is rejected
    (transport error, error response), no section is appended for any
    category.  A call that resolves with the empty text is not a failure: a
    section holding that text is put in front of the list of the category
    the call was issued for. *)
Theorem generation_rejected_appends_nothing
  (method : string) (tab : Tab.id) (e : string) (w : World) :
  (forall c,
      get (generatedContent
             (ui (generateStataCode_settled method tab (Rejected e) w))) c
      = get (generatedContent (ui w)) c)
  /\ get (generatedContent
            (ui (generateStataCode_settled method tab
                   (Resolved (Some EmptyString)) w))) tab
     = newSection method (Some EmptyString)
         :: get (generatedContent (ui w)) tab.
Proof.
  split; [reflexivity|].
  simpl. apply get_put_same.
Qed.

(** Clicking a method and having its exchange settle before anything else
    happens. *)
Lemma generation_round (m : Method.AnalysisMethod) (w : World) (r : Response) :
  let w' :=
    handle (GenerationSettled (length (inflight w)) r)
      (handle (ClickMethod m) w) in
  inflight w' = inflight w
  /\ activeTab (ui w') = activeTab (ui w)
  /\ generatedContent (ui w')
     = match r with
       | Resolved text =>
           put (generatedContent (ui w)) (activeTab (ui w))
             (newSection (Method.name m) text
                :: get (generatedContent (ui w)) (activeTab (ui w)))
       | Rejected _ => generatedContent (ui w)
       end.
Proof.
  intros w'. subst w'. unfold handle.
  assert (H : nth_error
                (inflight (generateStataCode (Method.name m) (Method.cmd m) w))
                (length (inflight w))
              = Some (GenerateCall (Method.name m) (activeTab (ui w))))
    by apply nth_error_snoc.
  rewrite H.
  destruct r; simpl; (split; [apply remove_nth_snoc | split; reflexivity]).
Qed.

(** C7: a call that resolves is wrapped as a section whose title is the
    method's name and whose code is the returned text, and the section is
    put in front of the list of the tab that was active when the method was
    clicked; two calls in a row for the same method leave two entries, the
    later one first; and no event ever drops or merges an entry: each list
    only grows at its front. *)
Theorem generation_success_prepends
  (m : Method.AnalysisMethod) (w w2 : World) (text text' : option string)
  (e : Event) (c : Tab.id) :
  let method := Method.name m in
  let tab := activeTab (ui w) in
  let i := length (inflight w) in
  let w1 := handle (ClickMethod m) w in
  nth_error (inflight w1) i = Some (GenerateCall method tab)
  /\ title (newSection method text) = method
  /\ code (newSection method text) = text
  /\ get (generatedContent
            (ui (generateStataCode_settled method tab (Resolved text) w2))) tab
     = newSection method text :: get (generatedContent (ui w2)) tab
  /\ (let w3 :=
        handle (ClickMethod m) (handle (GenerationSettled i (Resolved text)) w1)
      in
      let w4 := handle (GenerationSettled i (Resolved text')) w3 in
      get (generatedContent (ui w4)) tab
      = newSection method text' :: newSection method text
          :: get (generatedContent (ui w)) tab
      /\ length (get (generatedContent (ui w4)) tab)
         = 2 + length (get (generatedContent (ui w)) tab))
  /\ exists added,
       get (generatedContent (ui (handle e w))) c
       = added ++ get (generatedContent (ui w)) c.
Proof.
  intros method tab i w1.
  assert (H1 : nth_error (inflight w1) i = Some (GenerateCall method tab))
    by apply nth_error_snoc.
  split; [exact H1|].
  split; [reflexivity|]. split; [reflexivity|].
  split; [simpl; apply get_put_same|].
  split.
  - pose proof (generation_round m w (Resolved text)) as (Hi & Ht & Hg).
    fold i w1 in Hi, Ht, Hg.
    set (w2' := handle (GenerationSettled i (Resolved text)) w1) in *.
    pose proof (generation_round m w2' (Resolved text')) as (_ & _ & Hg').
    rewrite Hi in Hg'. fold i in Hg'.
    cbv zeta. rewrite Hg', Ht, Hg. fold tab method.
    rewrite !get_put_same. split; reflexivity.
  - destruct e; simpl;
      try (exists []; reflexivity).
    + unfold fetchVariables.
      destruct (negb (JS.truthy (topic (ui w)))
                || negb (JS.truthy_opt (apiKey (ui w))));
        exists []; reflexivity.
    + unfold changeName.
      destruct (JS.findIndex _ _); exists []; reflexivity.
    + unfold changeLabel.
      destruct (JS.findIndex _ _); exists []; reflexivity.
    + destruct (nth_error (inflight w) i0) as [[|]|]; try (exists []; reflexivity).
      destruct (fetchVariables_settled_cases r json (settle i0 w))
        as [(t & l & _ & _ & _ & Hui) | (_ & Hui)];
        rewrite Hui; exists []; reflexivity.
    + destruct (nth_error (inflight w) i0) as [[|meth t]|];
        try (exists []; reflexivity).
      destruct r as [err|txt]; simpl; [exists []; reflexivity|].
      destruct (Tab.eqb c t) eqn:Hc.
      * apply Tab_eqb_eq in Hc. subst c. rewrite get_put_same.
        exists [newSection meth txt]. reflexivity.
      * rewrite get_put_other; [exists []; reflexivity|].
        intros ->. destruct t; discriminate.
Qed.

(** ** Busy indicator and failure *)

(** C4, as the claim has it, fails: a code exchange that resolves with the
    empty text and a suggestion reply whose list is empty are failures for
    the specification, yet the first adds a section to the store and the
    second moves the wizard to step 2. *)
Lemma empty_replies_change_the_state :
  option_map (fun w => sections (generatedContent (ui w)))
    (run (toWorkbench ++ [ClickMethod descriptive]) (initial sampleKey))
  = Some 0
  /\ option_map (fun w => sections (generatedContent (ui w)))
       (run (toWorkbench
             ++ [ClickMethod descriptive;
                 GenerationSettled 0 (Resolved (Some EmptyString))])
          (initial sampleKey))
     = Some 1
  /\ option_map (fun w => step (ui w))
       (run toAwaitingSuggestions (initial sampleKey))
     = Some step1
  /\ option_map (fun w => step (ui w))
       (run (toAwaitingSuggestions ++ [answered 0 []]) (initial sampleKey))
     = Some step2.
Proof. repeat split. Qed.

(** C4, amended: whatever the outcome, [loading] is false once the rest of
    [fetchVariables] or of [generateStataCode] has run ([finally]); starting
    either operation changes nothing but [loading]; and on every outcome
    that the code takes for a failure (the exchange is rejected, the text
    does not parse, the parsed value is [null], or, for a suggestion, the
    reply has no truthy [variables], which includes an absent or empty text)
    the step, the variables, the topic, the role counts and the store are
    what they were: the only field that may differ is [loading].  An
    exchange that resolves with a text, even an empty one, and a suggestion
    reply with a list, even an empty one, are not failures for the code. *)
Theorem busy_cleared_and_failure_keeps_state
  (w w2 : World) (r : Response) (json : Parsed) (parsed : Parse)
  (method subType : string) (tab : Tab.id) :
  (* the indicator, on every path *)
  loading (ui (fetchVariables_settled r json w2)) = false
  /\ loading (ui (world_of (fetchVariables_settled_any r parsed w2))) = false
  /\ loading (ui (generateStataCode_settled method tab r w2)) = false
  /\ (enabled w ClickNext = true ->
      inflight (fetchVariables w) = inflight w ->
      loading (ui (fetchVariables w)) = false)
  (* pressing the button *)
  /\ core (ui (fetchVariables w)) = core (ui w)
  /\ core (ui (generateStataCode method subType w)) = core (ui w)
  (* a failed suggestion exchange *)
  /\ (suggestion_fails r json = true ->
      ui (fetchVariables_settled r json w2) = setLoading false (ui w2)
      /\ core (ui (fetchVariables_settled r json w2)) = core (ui w2)
      /\ core (ui (fetchVariables_settled r json (fetchVariables w)))
         = core (ui w))
  /\ (suggestion_fails_any r parsed = true ->
      exists w',
        fetchVariables_settled_any r parsed w2 = WellTyped w'
        /\ ui w' = setLoading false (ui w2)
        /\ core (ui w') = core (ui w2))
  (* a failed generation exchange *)
  /\ (generation_fails r = true ->
      ui (generateStataCode_settled method tab r w2) = setLoading false (ui w2)
      /\ core (ui (generateStataCode_settled method tab r w2)) = core (ui w2)
      /\ core (ui (generateStataCode_settled method tab r
                     (generateStataCode method subType w)))
         = core (ui w))
  (* what is not a failure *)
  /\ (forall text : string, generation_fails (Resolved (Some text)) = false)
  /\ (forall text l,
        text <> EmptyString ->
        suggestion_fails (Resolved (Some text)) (Data (Some l)) = false).
Proof.
  assert (Hstart : core (ui (fetchVariables w)) = core (ui w)).
  { unfold fetchVariables.
    destruct (negb (JS.truthy (topic (ui w)))
              || negb (JS.truthy_opt (apiKey (ui w)))); reflexivity. }
  assert (Hfail : forall w0, suggestion_fails r json = true ->
            ui (fetchVariables_settled r json w0) = setLoading false (ui w0)).
  { intros w0 Hf.
    destruct (fetchVariables_settled_cases r json w0)
      as [(text & l & Hr & Hne & Hj & _) | (_ & Hui)]; [|exact Hui].
    subst r json. destruct text; [now elim Hne | discriminate]. }
  split.
  { destruct (fetchVariables_settled_cases r json w2)
      as [(text & l & _ & _ & _ & Hui) | (_ & Hui)]; now rewrite Hui. }
  split.
  { destruct (fetchVariables_settled_any_cases r parsed w2)
      as [(text & data & v & _ & _ & _ & _ & _ & Ho) | (_ & w' & Ho & Hui)].
    - destruct (as_taxonomy v); rewrite Ho; reflexivity.
    - rewrite Ho. simpl. now rewrite Hui. }
  split; [reflexivity|].
  split.
  { unfold enabled, fetchVariables. intros Hen.
    destruct (negb (JS.truthy (topic (ui w)))
              || negb (JS.truthy_opt (apiKey (ui w)))).
    - intros _. destruct (loading (ui w)); [|reflexivity].
      rewrite orb_true_r in Hen. rewrite andb_false_r in Hen. discriminate.
    - simpl. intros H. apply (f_equal (@length Call)) in H.
      rewrite length_app in H. simpl in H. lia. }
  split; [exact Hstart|].
  split; [reflexivity|].
  split.
  { intros Hf. split; [now apply Hfail|].
    rewrite !Hfail by exact Hf. split; [reflexivity|].
    rewrite <- Hstart. reflexivity. }
  split.
  { intros Hf.
    destruct (fetchVariables_settled_any_cases r parsed w2)
      as [(text & data & v & Hr & Hne & Hp & Hv & Ht & _)
         | (_ & w' & Ho & Hui)].
    - exfalso. subst r parsed. unfold suggestion_fails_any, parse_value in Hf.
      destruct text; [now elim Hne|]. simpl in Hf.
      rewrite Hv in Hf. simpl in Hf. rewrite Ht in Hf. discriminate.
    - exists w'. split; [exact Ho|]. split; [exact Hui|]. now rewrite Hui. }
  split.
  { intros Hf. destruct r as [e|text]; [|discriminate]. repeat split. }
  split; [reflexivity|].
  intros text l Hne. destruct text; [now elim Hne | reflexivity].
Qed.

Lemma busy_cleared_and_failure_keeps_state_witness :
  suggestion_fails (Rejected "offline") (Data None) = true
  /\ suggestion_fails_any (Resolved (Some "null")) (Value JNull) = true
  /\ generation_fails (Rejected "offline") = true
  /\ loading (ui (fetchVariables_settled (Rejected "offline") (Data None)
                    awaitingWorld)) = false
  /\ core (ui (fetchVariables_settled (Rejected "offline") (Data None)
                 awaitingWorld))
     = core (ui awaitingWorld)
  /\ (exists w',
        fetchVariables_settled_any (Resolved (Some "null")) (Value JNull)
          awaitingWorld
        = WellTyped w'
        /\ core (ui w') = core (ui awaitingWorld))
  /\ core (ui (generateStataCode_settled "m" Tab.basic (Rejected "offline")
                 (generateStataCode "m" "c" (initial sampleKey))))
     = core (ui (initial sampleKey)).
Proof.
  split; [reflexivity|]. split; [reflexivity|]. split; [reflexivity|].
  destruct (busy_cleared_and_failure_keeps_state
              (initial sampleKey) awaitingWorld
              (Rejected "offline") (Data None) (Value JNull)
              "m" "c" Tab.basic)
    as (Hl & _ & _ & _ & _ & _ & Hs & _ & Hg & _).
  destruct (busy_cleared_and_failure_keeps_state
              (initial sampleKey) awaitingWorld
              (Resolved (Some "null")) (Data None) (Value JNull)
              "m" "c" Tab.basic)
    as (_ & _ & _ & _ & _ & _ & _ & Hany & _).
  split; [exact Hl|].
  destruct (Hs eq_refl) as (_ & Hcore & _).
  destruct (Hg eq_refl) as (_ & _ & H).
  destruct (Hany eq_refl) as (w' & Ho & _ & Hc).
  split; [exact Hcore|]. split; [|exact H].
  exists w'. split; [exact Ho | exact Hc].
Defined.

(** C10: pressing a method button changes [loading] only, and when its
    exchange resolves only the list of the tab the call was issued for is
    touched: the list of any other category, the step, the topic, the
    field, the role counts and the variables stay as they were. *)
Theorem generation_success_frame
  (method subType : string) (w w2 : World) (text : option string)
  (c : Tab.id) :
  c <> activeTab (ui w) ->
  let tab := activeTab (ui w) in
  let w' := generateStataCode_settled method tab (Resolved text) w2 in
  ui (generateStataCode method subType w) = setLoading true (ui w)
  /\ inflight (generateStataCode method subType w)
     = inflight w ++ [GenerateCall method tab]
  /\ get (generatedContent (ui w')) c = get (generatedContent (ui w2)) c
  /\ step (ui w') = step (ui w2)
  /\ topic (ui w') = topic (ui w2)
  /\ field (ui w') = field (ui w2)
  /\ (controlCount (ui w'), feCount (ui w'), mechCount (ui w'),
      heteroCount (ui w'))
     = (controlCount (ui w2), feCount (ui w2), mechCount (ui w2),
        heteroCount (ui w2))
  /\ variables (ui w') = variables (ui w2)
  /\ activeTab (ui w') = activeTab (ui w2).
Proof.
  intros Hc tab w'. subst w'.
  split; [reflexivity|]. split; [reflexivity|].
  split; [simpl; now apply get_put_other|].
  repeat split.
Qed.

Lemma generation_success_frame_witness :
  Tab.robust <> activeTab (ui (initial sampleKey))
  /\ get (generatedContent
            (ui (generateStataCode_settled "m" Tab.basic
                   (Resolved (Some "reg y x"))
                   (generateStataCode "m" "c" (initial sampleKey)))))
       Tab.robust
     = [].
Proof.
  assert (H : Tab.robust <> activeTab (ui (initial sampleKey)))
    by discriminate.
  split; [exact H|].
  destruct (generation_success_frame "m" "c" (initial sampleKey)
              (generateStataCode "m" "c" (initial sampleKey))
              (Some "reg y x") Tab.robust H)
    as (_ & _ & Hg & _).
  exact Hg.
Defined.

(** ** The references a code request carries *)

Lemma append_assoc (a b c : string) :
  ((a ++ b) ++ c = a ++ (b ++ c))%string.
Proof. induction a; simpl; congruence. Qed.

Lemma role_names_filter (r : Role) (vars : list VariableDef) :
  map name (filter (has_role r) vars) = role_names r vars.
Proof.
  induction vars as [|v vars IH]; simpl; [reflexivity|].
  unfold has_role at 1. destruct (Role_eqb (role v) r); simpl; congruence.
Qed.

(** Once one element is in, [join] adds a space and the next element. *)
Lemma join_fold_spaced (l : list string) :
  forall (k : nat) (a : string) (R : string),
    snd (fold_left (JS.join_step " ") l (S k, (R ++ a)%string))
    = (R ++ spaced (a :: l))%string.
Proof.
  induction l as [|b l IH]; intros k a R.
  - reflexivity.
  - cbn [fold_left JS.join_step Nat.ltb Nat.leb].
    rewrite (IH (S k) b ((R ++ a) ++ " ")%string).
    cbn [spaced]. now rewrite !append_assoc.
Qed.

Lemma join_spaced (l : list string) : JS.join " " l = spaced l.
Proof.
  destruct l as [|a l]; [reflexivity|].
  unfold JS.join. cbn [fold_left JS.join_step Nat.ltb Nat.leb].
  apply (join_fold_spaced l 0 a EmptyString).
Qed.

Lemma joined_names_spaced (r : Role) (vars : list VariableDef) :
  joined_names r vars = spaced (role_names r vars).
Proof.
  unfold joined_names. now rewrite join_spaced, role_names_filter.
Qed.

Lemma find_first (r : Role) (pre post : list VariableDef) (v : VariableDef) :
  role v = r ->
  (forall u, In u pre -> role u <> r) ->
  find (has_role r) (pre ++ v :: post) = Some v.
Proof.
  intros Hv. induction pre as [|u pre IH]; intros Hpre; simpl.
  - unfold has_role. rewrite Hv.
    now rewrite (proj2 (Role_eqb_eq r r) eq_refl).
  - unfold has_role at 1.
    destruct (Role_eqb (role u) r) eqn:E.
    + apply Role_eqb_eq in E. elim (Hpre u); simpl; auto.
    + apply IH. intros u' Hu'. apply Hpre. now right.
Qed.

Lemma find_none (r : Role) (vars : list VariableDef) :
  (forall u, In u vars -> role u <> r) -> find (has_role r) vars = None.
Proof.
  induction vars as [|u vars IH]; intros H; simpl; [reflexivity|].
  unfold has_role at 1.
  destruct (Role_eqb (role u) r) eqn:E.
  - apply Role_eqb_eq in E. elim (H u); simpl; auto.
  - apply IH. intros u' Hu'. apply H. now right.
Qed.

Lemma role_names_none (r : Role) (vars : list VariableDef) :
  (forall u, In u vars -> role u <> r) -> role_names r vars = [].
Proof.
  induction vars as [|u vars IH]; intros H; simpl; [reflexivity|].
  destruct (Role_eqb (role u) r) eqn:E.
  - apply Role_eqb_eq in E. elim (H u); simpl; auto.
  - apply IH. intros u' Hu'. apply H. now right.
Qed.

(** Cutting a concatenation in two, at its head or further on. *)
Lemma cut_here (t : string) : t = (EmptyString ++ t)%string.
Proof. reflexivity. Qed.

Lemma cut_later (a rest before tail : string) :
  rest = (before ++ tail)%string ->
  (a ++ rest)%string = ((a ++ before) ++ tail)%string.
Proof. intros ->. symmetry. apply append_assoc. Qed.

(** C6, as the claim has it, fails: a Y variable whose name has been emptied
    in the review screen is found, but [||] discards its empty name and the
    request refers to ["y"]. *)
Lemma emptied_name_falls_back :
  option_map
    (fun w => (map name (bucket Y (variables (ui w))),
               first_name Y "y" (variables (ui w))))
    (run (toReview
          ++ [ChangeName (mkVariableDef 0 "gdp" "GDP" Y) EmptyString;
              ClickConfirm])
       (initial sampleKey))
  = Some ([EmptyString], "y").
Proof. reflexivity. Qed.

(** C6, amended: the request is the prompt template filled with the topic,
    the method, and these references: [y] is the name of the first Y-role
    variable when there is one and its name is not empty, and ["y"]
    otherwise; [x] likewise with ["x"]; the controls, mechanisms, heteros and
    fixed effects are the names of the variables of that role, in taxonomy
    order, separated by single spaces, the empty string when there is none.
    With fixed effects named year and city, in that order, the fixed-effects
    line of the prompt reads [year city]. *)
Theorem canonical_references
  (s : State) (method subType : string) (r : Role) (d : string) :
  let vars := variables s in
  prompt_of s method subType
  = prompt_text (topic s)
      (first_name Y "y" vars) (first_name X "x" vars)
      (spaced (role_names Control vars))
      (spaced (role_names Mechanism vars))
      (spaced (role_names Hetero vars))
      (spaced (role_names FixedEffect vars))
      method subType
  /\ (forall pre v post,
        vars = pre ++ v :: post ->
        role v = r ->
        (forall u, In u pre -> role u <> r) ->
        first_name r d vars = if JS.truthy (name v) then name v else d)
  /\ ((forall u, In u vars -> role u <> r) ->
      first_name r d vars = d /\ spaced (role_names r vars) = EmptyString)
  /\ (role_names FixedEffect vars = ["year"; "city"] ->
      exists before after,
        prompt_of s method subType
        = (before ++ fixedEffectsSlot ++ "year city" ++ nl ++ after)%string).
Proof.
  intros vars.
  split; [|split; [|split]].
  - unfold prompt_of. fold vars. now rewrite !joined_names_spaced.
  - intros pre v post Hsplit Hv Hpre.
    unfold first_name. rewrite Hsplit, (find_first r pre post v Hv Hpre).
    simpl. unfold JS.or_else. simpl. reflexivity.
  - intros Hnone. split.
    + unfold first_name. now rewrite (find_none r vars Hnone).
    + now rewrite (role_names_none r vars Hnone).
  - intros Hfe. unfold prompt_of. fold vars.
    rewrite (joined_names_spaced FixedEffect), Hfe.
    unfold prompt_text. cbn [spaced].
    eexists. eexists.
    repeat first [ apply cut_here | apply cut_later ].
Qed.

Lemma canonical_references_witness :
  role_names FixedEffect (variables panelState) = ["year"; "city"]
  /\ first_name Y "y" (variables panelState) = "gdp"
  /\ exists before after,
       prompt_of panelState "双向固定效应 (Two-way FE)" "reghdfe"
       = (before ++ fixedEffectsSlot ++ "year city" ++ nl ++ after)%string.
Proof.
  split; [reflexivity|].
  destruct (canonical_references panelState "双向固定效应 (Two-way FE)"
              "reghdfe" Y "y")
    as (_ & Hfirst & _ & Hslot).
  split.
  - apply (Hfirst [] (mkVariableDef 0 "gdp" "GDP" Y)
             [mkVariableDef 1 "year" "Year" FixedEffect;
              mkVariableDef 2 "digital" "Digital index" X;
              mkVariableDef 3 "city" "City" FixedEffect]);
      [reflexivity | reflexivity | intros u []].
  - apply Hslot. reflexivity.
Defined.

(** ** Editing a variable in the review screen *)

Lemma objects_from_refs (l : list (string * string * Role)) :
  forall n, map ref (objects_from n l) = seq n (length l).
Proof.
  induction l as [|[[nm lb] r] l IH]; intros n; simpl; [reflexivity|].
  now rewrite IH.
Qed.

Lemma set_at_refs (f : VariableDef -> VariableDef) :
  (forall o, ref (f o) = ref o) ->
  forall (l : list VariableDef) (i : nat),
    map ref (JS.set_at i f l) = map ref l.
Proof.
  intros Hf. induction l as [|a l IH]; intros [|i]; simpl; try reflexivity.
  - now rewrite Hf.
  - now rewrite IH.
Qed.

Lemma set_at_split {A} (f : A -> A) (pre post : list A) (v : A) :
  JS.set_at (length pre) f (pre ++ v :: post) = pre ++ f v :: post.
Proof. induction pre; simpl; congruence. Qed.

(** On an array of distinct objects, [findIndex(item => item === v)] is the
    position of [v]. *)
Lemma findIndex_same_object (pre post : list VariableDef) (v : VariableDef) :
  NoDup (map ref (pre ++ v :: post)) ->
  JS.findIndex (fun item => same_object item v) (pre ++ v :: post)
  = Some (length pre).
Proof.
  induction pre as [|u pre IH]; simpl; intros Hnd.
  - unfold same_object. now rewrite Nat.eqb_refl.
  - inversion Hnd as [|x l Hnotin Hnd']; subst.
    unfold same_object at 1.
    destruct (Nat.eqb (ref u) (ref v)) eqn:E.
    + apply Nat.eqb_eq in E. elim Hnotin. rewrite E.
      rewrite map_app. apply in_or_app. right. now left.
    + now rewrite (IH Hnd').
Qed.

Lemma changeName_variables (v : VariableDef) (value : string) (s : State) :
  map ref (variables (changeName v value s)) = map ref (variables s).
Proof.
  unfold changeName.
  destruct (JS.findIndex _ _); [|reflexivity].
  simpl. now apply set_at_refs.
Qed.

Lemma changeLabel_variables (v : VariableDef) (value : string) (s : State) :
  map ref (variables (changeLabel v value s)) = map ref (variables s).
Proof.
  unfold changeLabel.
  destruct (JS.findIndex _ _); [|reflexivity].
  simpl. now apply set_at_refs.
Qed.

(** The variables of a reachable world are distinct objects. *)
Lemma reachable_distinct_objects (allowed : Event -> bool)
  (key : option string) (w : World) :
  reachable_by allowed key w -> NoDup (map ref (variables (ui w))).
Proof.
  induction 1 as [|w e _ IH _ _]; [constructor|].
  destruct e; simpl; try exact IH.
  - unfold fetchVariables.
    destruct (negb (JS.truthy (topic (ui w)))
              || negb (JS.truthy_opt (apiKey (ui w)))); exact IH.
  - now rewrite changeName_variables.
  - now rewrite changeLabel_variables.
  - destruct (nth_error (inflight w) i) as [[|]|]; try exact IH.
    destruct (fetchVariables_settled_cases r json (settle i w))
      as [(t & l & _ & _ & _ & Hui) | (_ & Hui)]; rewrite Hui; simpl.
    + rewrite objects_from_refs. apply seq_NoDup.
    + exact IH.
  - destruct (nth_error (inflight w) i) as [[|meth t]|]; try exact IH.
    destruct r; exact IH.
Qed.

Lemma bucket_split (r : Role) (pre post : list VariableDef) (v : VariableDef) :
  bucket r (pre ++ v :: post)
  = bucket r pre ++ (if has_role r v then [v] else []) ++ bucket r post.
Proof.
  unfold bucket. rewrite filter_app. simpl.
  destruct (has_role r v); reflexivity.
Qed.

Lemma replaced_in_place_intro
  (v v' : VariableDef) (pre post : list VariableDef) (s : State) :
  variables s = pre ++ v :: post ->
  role v' = role v ->
  replaced_in_place v v' pre post s (setVariables (pre ++ v' :: post) s).
Proof.
  intros Hsplit Hrole. repeat split; auto.
  - rewrite Hsplit. apply bucket_split.
  - simpl. rewrite bucket_split. unfold has_role. now rewrite Hrole.
Qed.

(** C8: in a reachable world, changing the name or the label of a variable
    [v] of the taxonomy rewrites that one object where it stands: its role
    and its other text are kept, the variables before and after it are the
    same, and every role bucket is the bucket it was, with [v] replaced at
    its own position in the bucket of its role. *)
Theorem rename_relabel_in_place
  (key : option string) (w : World) (v : VariableDef) (value : string) :
  reachable key w ->
  In v (variables (ui w)) ->
  exists pre post,
    replaced_in_place v (with_name value v) pre post
      (ui w) (changeName v value (ui w))
    /\ replaced_in_place v (with_label value v) pre post
         (ui w) (changeLabel v value (ui w))
    /\ name (with_name value v) = value
    /\ label (with_name value v) = label v
    /\ label (with_label value v) = value
    /\ name (with_label value v) = name v.
Proof.
  intros Hreach Hin.
  pose proof (reachable_distinct_objects _ _ _ Hreach) as Hnd.
  destruct (in_split _ _ Hin) as (pre & post & Hsplit).
  exists pre, post.
  assert (Hidx : JS.findIndex (fun item => same_object item v)
                   (variables (ui w)) = Some (length pre)).
  { rewrite Hsplit in *. now apply findIndex_same_object. }
  split; [|split; [|repeat split]].
  - unfold changeName. rewrite Hidx.
    rewrite Hsplit at 1. rewrite set_at_split.
    now apply replaced_in_place_intro.
  - unfold changeLabel. rewrite Hidx.
    rewrite Hsplit at 1. rewrite set_at_split.
    now apply replaced_in_place_intro.
Qed.

Lemma rename_relabel_in_place_witness :
  reachable sampleKey twinWorld
  /\ In (mkVariableDef 2 "pop" "" Control) (variables (ui twinWorld))
  /\ variables
       (changeName (mkVariableDef 2 "pop" "" Control) "density" (ui twinWorld))
     = [mkVariableDef 0 "gdp" "GDP" Y;
        mkVariableDef 1 "pop" "" Control;
        mkVariableDef 2 "density" "" Control]
  /\ exists pre post,
       replaced_in_place (mkVariableDef 2 "pop" "" Control)
         (with_label "density" (mkVariableDef 2 "pop" "" Control)) pre post
         (ui twinWorld)
         (changeLabel (mkVariableDef 2 "pop" "" Control) "density"
            (ui twinWorld)).
Proof.
  assert (Hreach : reachable sampleKey twinWorld).
  { apply (run_reachable sampleKey
             (toAwaitingSuggestions ++ [answered 0 twinControls])
             (initial sampleKey));
      [apply reach_initial | reflexivity]. }
  assert (Hin : In (mkVariableDef 2 "pop" "" Control)
                  (variables (ui twinWorld)))
    by (simpl; auto).
  split; [exact Hreach|]. split; [exact Hin|]. split; [reflexivity|].
  destruct (rename_relabel_in_place sampleKey twinWorld
              (mkVariableDef 2 "pop" "" Control) "density" Hreach Hin)
    as (pre & post & _ & Hlabel & _).
  exists pre, post. exact Hlabel.
Defined.

(** ** Step 1 and the variables *)

(** Without the return button, step 1 is only ever seen before the first
    variables arrive. *)
Lemma step1_without_return (key : option string) (w : World) :
  reachable_by not_return key w ->
  step (ui w) = step1 -> variables (ui w) = [].
Proof.
  induction 1 as [|w e _ IH Hallowed Hen]; [reflexivity|].
  destruct e; simpl in *; try exact IH; try discriminate.
  - unfold fetchVariables.
    destruct (negb (JS.truthy (topic (ui w)))
              || negb (JS.truthy_opt (apiKey (ui w)))); exact IH.
  - rewrite (proj1 (changeName_step v value (ui w))).
    rewrite (enabled_step2 _ _ Hen). discriminate.
  - rewrite (proj1 (changeLabel_step v value (ui w))).
    rewrite (enabled_step2 _ _ Hen). discriminate.
  - destruct (nth_error (inflight w) i) as [[|]|]; try exact IH.
    destruct (fetchVariables_settled_cases r json (settle i w))
      as [(t & l & _ & _ & _ & Hui) | (_ & Hui)]; rewrite Hui; simpl.
    + discriminate.
    + exact IH.
  - destruct (nth_error (inflight w) i) as [[|meth t]|]; try exact IH.
    destruct r; exact IH.
Qed.

(** C2, as the claim has it, fails: the return button only calls
    [setStep(1)], so after a review the wizard is back in step 1 with the
    variables it had. *)
Lemma return_keeps_variables_in_step1 :
  reachable sampleKey returnedWorld
  /\ step (ui returnedWorld) = step1
  /\ variables (ui returnedWorld) = [mkVariableDef 0 "gdp" "GDP" Y].
Proof.
  split; [|split; reflexivity].
  apply (run_reachable sampleKey (toReview ++ [ClickReturn])
           (initial sampleKey));
    [apply reach_initial | reflexivity].
Qed.

(** C2, amended: in every world reached without the return button, step 1
    has no variables; the return button, pressed in any world where it is
    shown, sets the step to 1 and keeps the variables and
    everything else as they are, so step 1 then holds the retained
    taxonomy. *)
Theorem step1_variables
  (key : option string) (w w' : World) :
  reachable_by not_return key w ->
  (step (ui w) = step1 -> variables (ui w) = [])
  /\ (enabled w' ClickReturn = true ->
      step (ui w') = step2
      /\ ui (handle ClickReturn w') = setStep step1 (ui w')
      /\ step (ui (handle ClickReturn w')) = step1
      /\ variables (ui (handle ClickReturn w')) = variables (ui w')).
Proof.
  intros Hw. split; [now apply (step1_without_return key)|].
  intros Hen. simpl in Hen. apply Step_eqb_eq in Hen.
  repeat split. exact Hen.
Qed.

Lemma step1_variables_witness :
  reachable_by not_return sampleKey awaitingWorld
  /\ step (ui awaitingWorld) = step1
  /\ variables (ui awaitingWorld) = []
  /\ enabled reviewWorld ClickReturn = true
  /\ step (ui (handle ClickReturn reviewWorld)) = step1
  /\ variables (ui (handle ClickReturn reviewWorld))
     = variables (ui reviewWorld).
Proof.
  assert (Hreach : reachable_by not_return sampleKey awaitingWorld).
  { apply (run_reachable_by not_return sampleKey toAwaitingSuggestions
             eq_refl (initial sampleKey));
      [apply reach_initial | reflexivity]. }
  destruct (step1_variables sampleKey awaitingWorld reviewWorld Hreach)
    as (Hempty & Hreturn).
  split; [exact Hreach|]. split; [reflexivity|].
  split; [exact (Hempty eq_refl)|]. split; [reflexivity|].
  destruct (Hreturn eq_refl) as (_ & _ & Hstep & Hvars).
  split; [exact Hstep | exact Hvars].
Defined.

(** ** The busy indicator as a gate *)

(** C5, as the claim has it, fails: [loading] is the one indicator both
    kinds of call set, and the method buttons do not look at it, so a second
    code request goes out while the first is awaited and [loading] is
    true. *)
Lemma generation_not_gated :
  option_map (fun w => loading (ui w))
    (run toAwaitingSuggestions (initial sampleKey))
  = Some true
  /\ option_map
       (fun w => (loading (ui w), inflight w,
                  enabled w (ClickMethod descriptive),
                  inflight (handle (ClickMethod descriptive) w)))
       (run (toWorkbench ++ [ClickMethod descriptive]) (initial sampleKey))
     = Some (true,
             [GenerateCall (Method.name descriptive) Tab.basic],
             true,
             [GenerateCall (Method.name descriptive) Tab.basic;
              GenerateCall (Method.name descriptive) Tab.basic]).
Proof. split; reflexivity. Qed.

(** C5, amended: there is one busy indicator, [loading], set by both kinds
    of call.  In every reachable world a suggestion call can be issued only
    while [loading] is false and no exchange is awaited, so it is never
    issued while the indicator is true or an earlier suggestion call is
    outstanding.  The indicator gates no state mutation: whether a change of
    topic, field, count, name or label, a return, a confirm or a tab switch
    can happen does not depend on it. *)
Theorem shared_indicator_gates_suggestions
  (key : option string) (w : World) (e : Event) (b : bool)
  (m : Method.AnalysisMethod) :
  reachable key w ->
  (enabled w ClickNext = true -> loading (ui w) = false /\ inflight w = [])
  /\ (loading (ui w) = true \/ In FetchCall (inflight w) ->
      enabled w ClickNext = false)
  /\ (enabled w ClickNext = true ->
      JS.truthy_opt (apiKey (ui w)) = true ->
      loading (ui (handle ClickNext w)) = true
      /\ inflight (handle ClickNext w) = [FetchCall])
  /\ loading (ui (handle (ClickMethod m) w)) = true
  /\ (is_mutation e = true ->
      enabled (on_ui (setLoading b) w) e = enabled w e).
Proof.
  intros Hreach.
  destruct (reachable_serialized key w Hreach) as [Hg Hf].
  assert (Hgate : enabled w ClickNext = true ->
                  step (ui w) = step1 /\ JS.truthy (topic (ui w)) = true
                  /\ loading (ui w) = false /\ inflight w = []).
  { simpl. intros Hen.
    apply andb_prop in Hen. destruct Hen as [Hs Hen].
    apply Step_eqb_eq in Hs. apply negb_true_iff, orb_false_elim in Hen.
    destruct Hen as [Ht Hl]. apply negb_false_iff in Ht.
    repeat split; auto.
    destruct (inflight w) as [|c l] eqn:E; [reflexivity|].
    assert (c = FetchCall) by (apply Hg; [congruence | now left]).
    subst c. destruct Hf as (_ & Hl' & _); [now left | congruence]. }
  split; [intros Hen; now destruct (Hgate Hen) as (_ & _ & Hl & Hi)|].
  split.
  { destruct (enabled w ClickNext) eqn:Hen; [|reflexivity].
    destruct (Hgate eq_refl) as (_ & _ & Hl & Hi).
    intros [H|H]; [congruence | rewrite Hi in H; destruct H]. }
  split.
  { intros Hen Hkey. destruct (Hgate Hen) as (_ & Ht & _ & Hi).
    simpl. unfold fetchVariables. rewrite Ht, Hkey. simpl.
    rewrite Hi. split; reflexivity. }
  split; [reflexivity|].
  destruct e; simpl; intros He; try discriminate; reflexivity.
Qed.

Lemma shared_indicator_gates_suggestions_witness :
  reachable sampleKey awaitingWorld
  /\ In FetchCall (inflight awaitingWorld)
  /\ enabled awaitingWorld ClickNext = false
  /\ is_mutation (ChangeTopic "trade") = true
  /\ enabled (on_ui (setLoading false) awaitingWorld) (ChangeTopic "trade")
     = enabled awaitingWorld (ChangeTopic "trade").
Proof.
  assert (Hreach : reachable sampleKey awaitingWorld).
  { apply (run_reachable sampleKey toAwaitingSuggestions
             (initial sampleKey));
      [apply reach_initial | reflexivity]. }
  assert (Hin : In FetchCall (inflight awaitingWorld)) by (simpl; auto).
  destruct (shared_indicator_gates_suggestions sampleKey awaitingWorld
              (ChangeTopic "trade") false descriptive Hreach)
    as (_ & Hbusy & _ & _ & Hmut).
  split; [exact Hreach|]. split; [exact Hin|].
  split; [exact (Hbusy (or_intror Hin))|].
  split; [reflexivity | exact (Hmut eq_refl)].
Defined.

(** * Further properties of the component *)

(** ** What a settled exchange leaves alone *)

Lemma fetchVariables_settled_env (r : Response) (json : Parsed) (w : World) :
  inflight (fetchVariables_settled r json w) = inflight w
  /\ sent (fetchVariables_settled r json w) = sent w.
Proof.
  destruct r as [e|[text|]]; simpl; auto.
  unfold parse_text. destruct (JS.truthy_opt (Some text)); auto.
  destruct json as [e|[l|]]; auto.
Qed.

Lemma generateStataCode_settled_env
  (method : string) (tab : Tab.id) (r : Response) (w : World) :
  inflight (generateStataCode_settled method tab r w) = inflight w
  /\ sent (generateStataCode_settled method tab r w) = sent w
  /\ alerts (generateStataCode_settled method tab r w) = alerts w.
Proof. destruct r; repeat split. Qed.

Lemma fetchVariables_ui (w : World) :
  ui (fetchVariables w) = ui w \/ ui (fetchVariables w) = setLoading true (ui w).
Proof.
  unfold fetchVariables.
  destruct (negb (JS.truthy (topic (ui w)))
            || negb (JS.truthy_opt (apiKey (ui w)))); auto.
Qed.

Lemma changeName_frame (v : VariableDef) (value : string) (s : State) :
  exists vars, changeName v value s = setVariables vars s.
Proof.
  unfold changeName. destruct (JS.findIndex _ _).
  - eexists; reflexivity.
  - exists (variables s). now destruct s.
Qed.

Lemma changeLabel_frame (v : VariableDef) (value : string) (s : State) :
  exists vars, changeLabel v value s = setVariables vars s.
Proof.
  unfold changeLabel. destruct (JS.findIndex _ _).
  - eexists; reflexivity.
  - exists (variables s). now destruct s.
Qed.

Lemma enabled_step1 (w : World) (b : bool) :
  Step_eqb (step (ui w)) step1 && b = true -> step (ui w) = step1.
Proof. intros H. apply andb_prop in H. now apply Step_eqb_eq. Qed.

(** ** Without a key *)

(** X1: when [process.env.API_KEY] is missing or empty the guard of
    [fetchVariables] returns every time: no request is ever sent, nothing is
    awaited, no notice is shown, and the wizard stays in step 1 with no
    variables and an idle indicator. *)
Theorem no_key_no_request (key : option string) (w : World) :
  JS.truthy_opt key = false ->
  reachable key w ->
  apiKey (ui w) = key
  /\ sent w = [] /\ inflight w = [] /\ alerts w = []
  /\ step (ui w) = step1 /\ loading (ui w) = false
  /\ variables (ui w) = [].
Proof.
  intros Hkey. induction 1 as [|w e _ IH _ Hen].
  { repeat split. }
  destruct IH as (Hk & Hsent & Hin & Hal & Hs & Hl & Hv).
  destruct e; simpl in Hen |- *;
    try (repeat split; assumption);
    try (rewrite Hs in Hen; discriminate);
    try (rewrite Hin in Hen; destruct i; discriminate).
  unfold fetchVariables. rewrite Hk, Hkey, orb_true_r.
  repeat split; assumption.
Qed.

Lemma no_key_no_request_witness :
  JS.truthy_opt None = false
  /\ reachable None noKeyWorld
  /\ topic (ui noKeyWorld) = "trade"
  /\ sent noKeyWorld = []
  /\ step (ui noKeyWorld) = step1.
Proof.
  assert (Hreach : reachable None noKeyWorld).
  { apply (run_reachable None [ChangeTopic "trade"; ClickNext]
             (initial None));
      [apply reach_initial | reflexivity]. }
  destruct (no_key_no_request None noKeyWorld eq_refl Hreach)
    as (_ & Hsent & _ & _ & Hs & _).
  split; [reflexivity|]. split; [exact Hreach|]. split; [reflexivity|].
  split; [exact Hsent | exact Hs].
Defined.

(** ** The busy indicator and what is awaited *)

(** X2: in a reachable world [loading] is only ever true while some exchange
    is awaited: the spinner never shows with nothing outstanding. *)
Theorem loading_means_awaiting (key : option string) (w : World) :
  reachable key w ->
  loading (ui w) = true ->
  inflight w <> [].
Proof.
  induction 1 as [|w e _ IH _ Hen]; [discriminate|].
  assert (Hsnoc : forall (l : list Call) c, l ++ [c] <> [])
    by (intros [|a l] c; discriminate).
  destruct e; simpl; try exact IH.
  - unfold fetchVariables.
    destruct (negb (JS.truthy (topic (ui w)))
              || negb (JS.truthy_opt (apiKey (ui w)))); [exact IH|].
    intros _. apply Hsnoc.
  - rewrite (proj2 (changeName_step v value (ui w))). exact IH.
  - rewrite (proj2 (changeLabel_step v value (ui w))). exact IH.
  - intros _. apply Hsnoc.
  - destruct (nth_error (inflight w) i) as [[|]|]; try exact IH.
    destruct (fetchVariables_settled_cases r json (settle i w))
      as [(t & l & _ & _ & _ & Hui) | (_ & Hui)]; rewrite Hui; discriminate.
  - destruct (nth_error (inflight w) i) as [[|meth t]|]; try exact IH.
    destruct r; discriminate.
Qed.

Lemma loading_means_awaiting_witness :
  reachable sampleKey awaitingWorld
  /\ loading (ui awaitingWorld) = true
  /\ inflight awaitingWorld <> [].
Proof.
  assert (Hreach : reachable sampleKey awaitingWorld).
  { apply (run_reachable sampleKey toAwaitingSuggestions
             (initial sampleKey));
      [apply reach_initial | vm_compute; reflexivity]. }
  assert (Hl : loading (ui awaitingWorld) = true) by (vm_compute; reflexivity).
  split; [exact Hreach|]. split; [exact Hl|].
  exact (loading_means_awaiting sampleKey awaitingWorld Hreach Hl).
Defined.

Lemma nth_error_snoc_first {A} (l : list A) (c1 c2 : A) :
  nth_error ((l ++ [c1]) ++ [c2]) (length l) = Some c1.
Proof. induction l; simpl; auto. Qed.

Lemma nth_error_snoc_second {A} (l : list A) (c1 c2 : A) :
  nth_error ((l ++ [c1]) ++ [c2]) (S (length l)) = Some c2.
Proof. induction l; simpl; auto. Qed.

Lemma remove_nth_app {A} (l r : list A) (k : nat) :
  remove_nth (length l + k) (l ++ r) = l ++ remove_nth k r.
Proof.
  induction l as [|a l IH]; [reflexivity|].
  change (remove_nth (length (a :: l) + k) ((a :: l) ++ r))
    with (a :: remove_nth (length l + k) (l ++ r)).
  now rewrite IH.
Qed.

Lemma remove_nth_snoc_first {A} (l : list A) (c1 c2 : A) :
  remove_nth (length l) ((l ++ [c1]) ++ [c2]) = l ++ [c2].
Proof.
  rewrite <- app_assoc, <- (Nat.add_0_r (length l)).
  now rewrite remove_nth_app.
Qed.

Lemma remove_nth_snoc_second {A} (l : list A) (c1 c2 : A) :
  remove_nth (S (length l)) ((l ++ [c1]) ++ [c2]) = l ++ [c1].
Proof.
  rewrite <- app_assoc, <- (Nat.add_1_r (length l)).
  now rewrite remove_nth_app.
Qed.

Lemma settle_inflight (i : nat) (w : World) :
  inflight (settle i w) = remove_nth i (inflight w).
Proof. reflexivity. Qed.

Lemma settle_generation
  (w : World) (i : nat) (method : string) (tab : Tab.id) (r : Response) :
  nth_error (inflight w) i = Some (GenerateCall method tab) ->
  handle (GenerationSettled i r) w
  = generateStataCode_settled method tab r (settle i w).
Proof. intros H. simpl. now rewrite H. Qed.

Lemma twoClicks_shape (m1 m2 : Method.AnalysisMethod) (w : World) :
  ui (twoClicks m1 m2 w) = setLoading true (ui w)
  /\ inflight (twoClicks m1 m2 w)
     = (inflight w ++ [GenerateCall (Method.name m1) (activeTab (ui w))])
       ++ [GenerateCall (Method.name m2) (activeTab (ui w))].
Proof. split; reflexivity. Qed.

(** X3: the method buttons stay enabled while a code exchange is awaited,
    and when the first of two awaited exchanges settles, whatever its
    outcome, [finally] sets [loading] to false although the second is still
    awaited. *)
Theorem first_answer_clears_loading
  (m1 m2 : Method.AnalysisMethod) (w : World) (r : Response) :
  let i := length (inflight w) in
  let w3 := handle (GenerationSettled i r) (twoClicks m1 m2 w) in
  enabled (handle (ClickMethod m1) w) (ClickMethod m2)
  = enabled w (ClickMethod m2)
  /\ loading (ui (twoClicks m1 m2 w)) = true
  /\ loading (ui w3) = false
  /\ inflight w3
     = inflight w ++ [GenerateCall (Method.name m2) (activeTab (ui w))].
Proof.
  intros i w3. subst w3 i.
  destruct (twoClicks_shape m1 m2 w) as (Hui & Hin).
  split; [reflexivity|]. split; [reflexivity|].
  rewrite (settle_generation (twoClicks m1 m2 w) (length (inflight w))
             (Method.name m1) (activeTab (ui w)) r)
    by (rewrite Hin; apply nth_error_snoc_first).
  split; [now destruct r|].
  rewrite (proj1 (generateStataCode_settled_env _ _ _ _)).
  rewrite settle_inflight, Hin.
  apply remove_nth_snoc_first.
Qed.

(** X4: sections are stacked in the order the exchanges settle, not in the
    order the methods were clicked: of two awaited calls for one tab, the
    one that resolves last ends on top, be it the first or the second
    requested. *)
Theorem sections_in_arrival_order
  (m1 m2 : Method.AnalysisMethod) (w : World) (t1 t2 : option string) :
  let i := length (inflight w) in
  let tab := activeTab (ui w) in
  let old := get (generatedContent (ui w)) tab in
  let s1 := newSection (Method.name m1) t1 in
  let s2 := newSection (Method.name m2) t2 in
  get (generatedContent
         (ui (handle (GenerationSettled i (Resolved t2))
                (handle (GenerationSettled i (Resolved t1))
                   (twoClicks m1 m2 w))))) tab
  = s2 :: s1 :: old
  /\ get (generatedContent
            (ui (handle (GenerationSettled i (Resolved t1))
                   (handle (GenerationSettled (S i) (Resolved t2))
                      (twoClicks m1 m2 w))))) tab
     = s1 :: s2 :: old.
Proof.
  intros i tab old s1 s2. subst i.
  destruct (twoClicks_shape m1 m2 w) as (Hui & Hin).
  split.
  - rewrite (settle_generation (twoClicks m1 m2 w) _ (Method.name m1) tab)
      by (rewrite Hin; apply nth_error_snoc_first).
    rewrite (settle_generation _ _ (Method.name m2) tab).
    + simpl. rewrite !get_put_same. reflexivity.
    + rewrite (proj1 (generateStataCode_settled_env _ _ _ _)).
      rewrite settle_inflight, Hin.
      rewrite remove_nth_snoc_first. apply nth_error_snoc.
  - rewrite (settle_generation (twoClicks m1 m2 w) _ (Method.name m2) tab)
      by (rewrite Hin; apply nth_error_snoc_second).
    rewrite (settle_generation _ _ (Method.name m1) tab).
    + simpl. rewrite !get_put_same. reflexivity.
    + rewrite (proj1 (generateStataCode_settled_env _ _ _ _)).
      rewrite settle_inflight, Hin.
      rewrite remove_nth_snoc_second. apply nth_error_snoc.
Qed.

(** X5: switching tabs while a code exchange is awaited does not redirect
    its result: settling an exchange and clicking a tab give the same world
    in either order, because the rest of [generateStataCode] uses the
    [activeTab] of the render in which the method was clicked. *)
Theorem tab_switch_commutes_with_settle
  (w : World) (i : nat) (r : Response) (t : Tab.id) :
  handle (ClickTab t) (handle (GenerationSettled i r) w)
  = handle (GenerationSettled i r) (handle (ClickTab t) w).
Proof.
  simpl. destruct (nth_error (inflight w) i) as [[|method tab]|];
    try reflexivity.
  destruct r; reflexivity.
Qed.

(** ** After step 1 *)




(** In step 3 of a reachable world no suggestion exchange is awaited. *)
Lemma workbench_awaits_no_suggestion
  (key : option string) (w : World) (i : nat) :
  reachable key w ->
  step (ui w) = step3 ->
  nth_error (inflight w) i <> Some FetchCall.
Proof.
  intros Hreach Hs H.
  destruct (reachable_serialized key w Hreach) as [_ Hf].
  destruct Hf as (Hs1 & _); [eapply nth_error_In; eauto | congruence].
Qed.

(** X7: the workbench is final: from a reachable world in step 3 every
    event that can happen leaves the wizard in step 3 and leaves the
    variables as they are.  There is no way back to the review, and the
    references of every later request are those that were confirmed. *)
Theorem workbench_is_final (key : option string) (w : World) (e : Event) :
  reachable key w ->
  step (ui w) = step3 ->
  enabled w e = true ->
  step (ui (handle e w)) = step3
  /\ variables (ui (handle e w)) = variables (ui w).
Proof.
  intros Hreach Hs Hen.
  destruct e; simpl in Hen |- *;
    try (apply enabled_step1 in Hen; congruence);
    try (apply enabled_step2 in Hen; congruence);
    try (apply Step_eqb_eq in Hen; congruence);
    try (split; [exact Hs | reflexivity]).
  - destruct (nth_error (inflight w) i) as [[|]|] eqn:E; try discriminate.
    elim (workbench_awaits_no_suggestion key w i Hreach Hs E).
  - destruct (nth_error (inflight w) i) as [[|meth t]|]; try discriminate.
    destruct r; split; [exact Hs | reflexivity | exact Hs | reflexivity].
Qed.

Lemma workbench_is_final_witness :
  reachable sampleKey busyWorkbench
  /\ step (ui busyWorkbench) = step3
  /\ enabled busyWorkbench (GenerationSettled 0 (Resolved (Some "reg y x")))
     = true
  /\ step (ui (handle (GenerationSettled 0 (Resolved (Some "reg y x")))
                 busyWorkbench)) = step3.
Proof.
  assert (Hreach : reachable sampleKey busyWorkbench).
  { apply (run_reachable sampleKey (toWorkbench ++ [ClickMethod descriptive])
             (initial sampleKey));
      [apply reach_initial | vm_compute; reflexivity]. }
  assert (Hs : step (ui busyWorkbench) = step3) by (vm_compute; reflexivity).
  assert (Hen : enabled busyWorkbench
                  (GenerationSettled 0 (Resolved (Some "reg y x"))) = true)
    by (vm_compute; reflexivity).
  split; [exact Hreach|]. split; [exact Hs|]. split; [exact Hen|].
  exact (proj1 (workbench_is_final sampleKey busyWorkbench
                  (GenerationSettled 0 (Resolved (Some "reg y x")))
                  Hreach Hs Hen)).
Defined.

(** X8: nothing that happens in the workbench shows a notice: the only
    [alert] of the component is in the [catch] of [fetchVariables], and a
    code exchange that is rejected is only written to the console. *)
Theorem workbench_never_alerts (key : option string) (w : World) (e : Event) :
  reachable key w ->
  step (ui w) = step3 ->
  enabled w e = true ->
  alerts (handle e w) = alerts w
  /\ forall i err,
       e = GenerationSettled i (Rejected err) ->
       console (handle e w) = err :: console w.
Proof.
  intros Hreach Hs Hen.
  destruct e; simpl in Hen |- *;
    try (apply enabled_step1 in Hen; congruence);
    try (apply enabled_step2 in Hen; congruence);
    try (apply Step_eqb_eq in Hen; congruence);
    try (split; [reflexivity | intros; discriminate]).
  - destruct (nth_error (inflight w) i) as [[|]|] eqn:E; try discriminate.
    elim (workbench_awaits_no_suggestion key w i Hreach Hs E).
  - destruct (nth_error (inflight w) i) as [[|meth t]|]; try discriminate.
    split; [now destruct r|].
    intros i' err H. inversion H; subst. reflexivity.
Qed.

Lemma workbench_never_alerts_witness :
  reachable sampleKey busyWorkbench
  /\ step (ui busyWorkbench) = step3
  /\ enabled busyWorkbench (GenerationSettled 0 (Rejected "offline")) = true
  /\ alerts (handle (GenerationSettled 0 (Rejected "offline")) busyWorkbench)
     = alerts busyWorkbench
  /\ console (handle (GenerationSettled 0 (Rejected "offline")) busyWorkbench)
     = "offline" :: console busyWorkbench.
Proof.
  assert (Hreach : reachable sampleKey busyWorkbench).
  { apply (run_reachable sampleKey (toWorkbench ++ [ClickMethod descriptive])
             (initial sampleKey));
      [apply reach_initial | vm_compute; reflexivity]. }
  assert (Hs : step (ui busyWorkbench) = step3) by (vm_compute; reflexivity).
  assert (Hen : enabled busyWorkbench
                  (GenerationSettled 0 (Rejected "offline")) = true)
    by (vm_compute; reflexivity).
  destruct (workbench_never_alerts sampleKey busyWorkbench
              (GenerationSettled 0 (Rejected "offline")) Hreach Hs Hen)
    as (Ha & Hc).
  split; [exact Hreach|]. split; [exact Hs|]. split; [exact Hen|].
  split; [exact Ha | exact (Hc 0 "offline" eq_refl)].
Defined.

(** ** What is stored, and for which request *)

Lemma Method_eqb_eq (a b : Method.AnalysisMethod) :
  Method_eqb a b = true -> a = b.
Proof.
  destruct a as [n1 c1], b as [n2 c2]. unfold Method_eqb. simpl.
  intros H. apply andb_prop in H. destruct H as [Hn Hc].
  apply String.eqb_eq in Hn. apply String.eqb_eq in Hc. congruence.
Qed.

Lemma filed_on_ui (f : State -> State) (w : World) :
  generatedContent (f (ui w)) = generatedContent (ui w) ->
  filed w -> filed (on_ui f w).
Proof. intros H [Hs Hc]. split; simpl; [rewrite H|]; assumption. Qed.

Lemma filed_settle (i : nat) (w : World) : filed w -> filed (settle i w).
Proof.
  intros [Hs Hc]. split; simpl; [assumption|].
  intros method tab H. apply Hc. now apply (in_remove_nth i).
Qed.

Lemma reachable_filed (key : option string) (w : World) :
  reachable key w -> filed w.
Proof.
  induction 1 as [|w e _ IH _ Hen].
  { split; simpl; [intros [] sec [] | intros method tab []]. }
  destruct e; simpl in Hen |- *;
    try (apply filed_on_ui; [reflexivity | exact IH]).
  - (* ClickNext *)
    unfold fetchVariables.
    destruct (negb (JS.truthy (topic (ui w)))
              || negb (JS.truthy_opt (apiKey (ui w)))); [exact IH|].
    destruct IH as [Hs Hc]. split; simpl; [exact Hs|].
    intros method tab H. apply in_app_or in H.
    destruct H as [H|[H|[]]]; [now apply Hc | discriminate].
  - (* ChangeName *)
    apply filed_on_ui; [|exact IH].
    destruct (changeName_frame v value (ui w)) as (vars & ->). reflexivity.
  - (* ChangeLabel *)
    apply filed_on_ui; [|exact IH].
    destruct (changeLabel_frame v value (ui w)) as (vars & ->). reflexivity.
  - (* ClickMethod *)
    apply andb_prop in Hen. destruct Hen as [_ Hm].
    apply existsb_exists in Hm. destruct Hm as (m' & Hin & Heq).
    apply Method_eqb_eq in Heq. subst m'.
    destruct IH as [Hs Hc]. split; simpl; [exact Hs|].
    intros method tab H. apply in_app_or in H.
    destruct H as [H|[H|[]]]; [now apply Hc|].
    inversion H; subst. now exists m.
  - (* SuggestionSettled *)
    destruct (nth_error (inflight w) i) as [[|]|]; try exact IH.
    pose proof (filed_settle i w IH) as [Hs Hc].
    destruct (fetchVariables_settled_env r json (settle i w)) as (Hi & _).
    split; [|now rewrite Hi].
    destruct (fetchVariables_settled_cases r json (settle i w))
      as [(t & l & _ & _ & _ & Hui) | (_ & Hui)]; rewrite Hui; exact Hs.
  - (* GenerationSettled *)
    destruct (nth_error (inflight w) i) as [[|meth t]|] eqn:E; try exact IH.
    assert (Hm : exists m, In m (analysisMethods t) /\ meth = Method.name m).
    { destruct IH as [_ Hc]. apply Hc. eapply nth_error_In; eauto. }
    pose proof (filed_settle i w IH) as [Hs Hc].
    destruct r as [err|text]; [split; assumption|].
    split; [|exact Hc]. simpl.
    intros t' sec Hsec.
    destruct (Tab.eqb t' t) eqn:Ht.
    + apply Tab_eqb_eq in Ht. subst t'. rewrite get_put_same in Hsec.
      destruct Hsec as [<-|Hsec]; [|now apply Hs].
      destruct Hm as (m & Hin & ->). now exists m.
    + rewrite get_put_other in Hsec; [now apply Hs|].
      intros ->. destruct t; discriminate.
Qed.

(** X9: in a reachable world every section is filed under the tab of its
    method: the title of a section stored for a tab is the name of one of
    the twelve methods of that tab, and its caption is built from that
    name, even when the operator has moved to another tab before the
    exchange settled. *)
Theorem sections_filed_under_their_tab
  (key : option string) (w : World) (t : Tab.id) (sec : CodeSection) :
  reachable key w ->
  In sec (get (generatedContent (ui w)) t) ->
  exists m,
    In m (analysisMethods t)
    /\ title sec = Method.name m
    /\ explanation sec = ("Generated code for " ++ Method.name m ++ ".")%string.
Proof.
  intros Hreach Hin.
  destruct (reachable_filed key w Hreach) as [Hs _]. now apply Hs.
Qed.

Lemma sections_filed_under_their_tab_witness :
  reachable sampleKey movedTabWorld
  /\ activeTab (ui movedTabWorld) = Tab.robust
  /\ In (newSection (Method.name descriptive) (Some "sum gdp, detail"))
       (get (generatedContent (ui movedTabWorld)) Tab.basic)
  /\ exists m,
       In m (analysisMethods Tab.basic)
       /\ title (newSection (Method.name descriptive) (Some "sum gdp, detail"))
          = Method.name m
       /\ explanation
            (newSection (Method.name descriptive) (Some "sum gdp, detail"))
          = ("Generated code for " ++ Method.name m ++ ".")%string.
Proof.
  assert (Hreach : reachable sampleKey movedTabWorld).
  { apply (run_reachable sampleKey
             (toWorkbench
              ++ [ClickMethod descriptive; ClickTab Tab.robust;
                  GenerationSettled 0 (Resolved (Some "sum gdp, detail"))])
             (initial sampleKey));
      [apply reach_initial | vm_compute; reflexivity]. }
  assert (Hin : In (newSection (Method.name descriptive)
                      (Some "sum gdp, detail"))
                  (get (generatedContent (ui movedTabWorld)) Tab.basic))
    by (vm_compute; left; reflexivity).
  split; [exact Hreach|]. split; [vm_compute; reflexivity|].
  split; [exact Hin|].
  exact (sections_filed_under_their_tab sampleKey movedTabWorld Tab.basic
           (newSection (Method.name descriptive) (Some "sum gdp, detail"))
           Hreach Hin).
Defined.

Lemma filter_remove_nth {A} (p : A -> bool) (l : list A) :
  forall (i : nat) (c : A),
    nth_error l i = Some c ->
    length (filter p l)
    = (if p c then 1 else 0) + length (filter p (remove_nth i l)).
Proof.
  induction l as [|a l IH]; intros [|i] c H; try discriminate.
  - inversion H; subst.
    change (remove_nth 0 (c :: l)) with l. simpl.
    destruct (p c); reflexivity.
  - change (remove_nth (S i) (a :: l)) with (a :: remove_nth i l).
    simpl in H. specialize (IH i c H). simpl.
    destruct (p a), (p c); simpl in *; lia.
Qed.

Lemma sections_put (g : Store) (t : Tab.id) (sec : CodeSection) :
  sections (put g t (sec :: get g t)) = S (sections g).
Proof. destruct t; unfold sections; simpl; lia. Qed.

(** X10: no section without a request: in a reachable world the sections
    stored over all tabs, together with the code exchanges still awaited,
    never outnumber the code requests that were sent. *)
Theorem sections_answer_requests (key : option string) (w : World) :
  reachable key w ->
  sections (generatedContent (ui w))
  + length (filter is_generate_call (inflight w))
  <= length (filter is_code_request (sent w)).
Proof.
  induction 1 as [|w e _ IH _ Hen]; [simpl; lia|].
  destruct e; cbn -[prompt_of]; try exact IH.
  - unfold fetchVariables.
    destruct (negb (JS.truthy (topic (ui w)))
              || negb (JS.truthy_opt (apiKey (ui w)))); [exact IH|].
    simpl. rewrite filter_app. simpl. rewrite app_nil_r. exact IH.
  - destruct (changeName_frame v value (ui w)) as (vars & ->). exact IH.
  - destruct (changeLabel_frame v value (ui w)) as (vars & ->). exact IH.
  - rewrite filter_app, length_app. simpl. lia.
  - destruct (nth_error (inflight w) i) as [[|]|] eqn:E; try exact IH.
    destruct (fetchVariables_settled_env r json (settle i w)) as (-> & ->).
    rewrite settle_inflight.
    rewrite (filter_remove_nth is_generate_call _ i FetchCall E) in IH.
    destruct (fetchVariables_settled_cases r json (settle i w))
      as [(t & l & _ & _ & _ & Hui) | (_ & Hui)]; rewrite Hui; exact IH.
  - destruct (nth_error (inflight w) i) as [[|meth t]|] eqn:E; try exact IH.
    rewrite (filter_remove_nth is_generate_call _ i _ E) in IH.
    destruct r as [err|text]; simpl in IH |- *; [lia|].
    rewrite sections_put. lia.
Qed.

Lemma sections_answer_requests_witness :
  reachable sampleKey movedTabWorld
  /\ sections (generatedContent (ui movedTabWorld)) = 1
  /\ sections (generatedContent (ui movedTabWorld))
     + length (filter is_generate_call (inflight movedTabWorld))
     <= length (filter is_code_request (sent movedTabWorld)).
Proof.
  assert (Hreach : reachable sampleKey movedTabWorld).
  { apply (run_reachable sampleKey
             (toWorkbench
              ++ [ClickMethod descriptive; ClickTab Tab.robust;
                  GenerationSettled 0 (Resolved (Some "sum gdp, detail"))])
             (initial sampleKey));
      [apply reach_initial | vm_compute; reflexivity]. }
  split; [exact Hreach|]. split; [vm_compute; reflexivity|].
  exact (sections_answer_requests sampleKey movedTabWorld Hreach).
Defined.

(** ** What is asked of the suggestion collaborator *)

(** What holds of the suggestion requests of a reachable world. *)
Lemma reachable_asked (key : option string) (w : World) :
  reachable key w ->
  apiKey (ui w) = key
  /\ In (field (ui w)) fieldOptions
  /\ (forall t f c m h fe,
        In (SuggestionRequest t f c m h fe) (sent w) ->
        t <> EmptyString /\ In f fieldOptions /\ JS.truthy_opt key = true)
  /\ (In FetchCall (inflight w) \/ step (ui w) <> step1
      \/ variables (ui w) <> [] ->
      existsb is_suggestion_request (sent w) = true).
Proof.
  induction 1 as [|w e _ (Hk & Hf & Hsent & Hask) _ Hen].
  { split; [reflexivity|]. split; [simpl; auto|].
    split; [intros t f c m h fe []|].
    intros [[]|[H|H]]; now elim H. }
  assert (Hkeep : forall g : State -> State,
            (forall s, apiKey (g s) = apiKey s) ->
            (forall s, field (g s) = field s) ->
            (step (g (ui w)) <> step1 \/ variables (g (ui w)) <> [] ->
             step (ui w) <> step1 \/ variables (ui w) <> []) ->
            apiKey (ui (on_ui g w)) = key
            /\ In (field (ui (on_ui g w))) fieldOptions
            /\ (forall t f c m h fe,
                  In (SuggestionRequest t f c m h fe) (sent (on_ui g w)) ->
                  t <> EmptyString /\ In f fieldOptions
                  /\ JS.truthy_opt key = true)
            /\ (In FetchCall (inflight (on_ui g w))
                \/ step (ui (on_ui g w)) <> step1
                \/ variables (ui (on_ui g w)) <> [] ->
                existsb is_suggestion_request (sent (on_ui g w)) = true)).
  { intros g Hgk Hgf Hgs. simpl. rewrite Hgk, Hgf.
    split; [exact Hk|]. split; [exact Hf|]. split; [exact Hsent|].
    intros [H|H]; apply Hask; [now left | right].
    destruct (Hgs H); auto. }
  destruct e; cbn -[prompt_of] in Hen |- *.
  - apply (Hkeep (setTopic value)); auto.
  - (* ChangeField *)
    apply andb_prop in Hen. destruct Hen as [_ Hopt].
    change (existsb (String.eqb value) fieldOptions = true) in Hopt.
    apply existsb_exists in Hopt. destruct Hopt as (o & Ho & Heq).
    apply String.eqb_eq in Heq. subst o.
    split; [exact Hk|]. split; [exact Ho|]. split; [exact Hsent|].
    exact Hask.
  - apply (Hkeep (setControlCount n)); auto.
  - apply (Hkeep (setFeCount n)); auto.
  - apply (Hkeep (setMechCount n)); auto.
  - apply (Hkeep (setHeteroCount n)); auto.
  - (* ClickNext *)
    apply andb_prop in Hen. destruct Hen as [_ Hen].
    apply negb_true_iff, orb_false_elim in Hen. destruct Hen as [Ht _].
    apply negb_false_iff in Ht.
    unfold fetchVariables. rewrite Ht. simpl.
    destruct (JS.truthy_opt (apiKey (ui w))) eqn:Ekey; simpl;
      [|split; [exact Hk|]; split; [exact Hf|]; split; [exact Hsent|];
        exact Hask].
    split; [exact Hk|]. split; [exact Hf|]. split; [|reflexivity].
    intros t f c m h fe [H|H]; [|now apply (Hsent _ _ _ _ _ _ H)].
    inversion H; subst. split; [|split; [exact Hf | exact Ekey]].
    intros E. rewrite E in Ht. discriminate.
  - (* ChangeName *)
    destruct (changeName_frame v value (ui w)) as (vars & E).
    apply enabled_step2 in Hen. rewrite E.
    split; [exact Hk|]. split; [exact Hf|]. split; [exact Hsent|].
    intros _. apply Hask. right. left. congruence.
  - (* ChangeLabel *)
    destruct (changeLabel_frame v value (ui w)) as (vars & E).
    apply enabled_step2 in Hen. rewrite E.
    split; [exact Hk|]. split; [exact Hf|]. split; [exact Hsent|].
    intros _. apply Hask. right. left. congruence.
  - (* ClickReturn *)
    apply Step_eqb_eq in Hen.
    split; [exact Hk|]. split; [exact Hf|]. split; [exact Hsent|].
    intros _. apply Hask. right. left. congruence.
  - (* ClickConfirm *)
    apply Step_eqb_eq in Hen.
    split; [exact Hk|]. split; [exact Hf|]. split; [exact Hsent|].
    intros _. apply Hask. right. left. congruence.
  - apply (Hkeep (setActiveTab t)); auto.
  - (* ClickMethod *)
    apply enabled_step3 in Hen.
    split; [exact Hk|]. split; [exact Hf|]. split.
    + intros t f c m' h fe [H|H];
        [discriminate | now apply (Hsent _ _ _ _ _ _ H)].
    + intros _. apply Hask. right. left. congruence.
  - (* SuggestionSettled *)
    destruct (nth_error (inflight w) i) as [[|]|] eqn:E; try discriminate.
    assert (Hany : existsb is_suggestion_request (sent w) = true).
    { apply Hask. left. eapply nth_error_In; eauto. }
    destruct (fetchVariables_settled_env r json (settle i w)) as (Hi & Hs).
    rewrite Hs. change (sent (settle i w)) with (sent w).
    destruct (fetchVariables_settled_cases r json (settle i w))
      as [(t & l & _ & _ & _ & Hui) | (_ & Hui)]; rewrite Hui;
      (split; [exact Hk|]; split; [exact Hf|]; split; [exact Hsent|];
       intros _; exact Hany).
  - (* GenerationSettled *)
    destruct (nth_error (inflight w) i) as [[|meth t]|] eqn:E;
      try discriminate.
    destruct r as [err|text];
      (split; [exact Hk|]; split; [exact Hf|]; split; [exact Hsent|];
       intros [H|H]; apply Hask;
       [left; now apply (in_remove_nth i) | now right]).
Qed.

(** X11: a suggestion request is only ever sent with a key, for a topic
    that is not empty and a field that is one of the eight options of the
    first screen. *)
Theorem suggestion_requests_well_formed
  (key : option string) (w : World)
  (t f : string) (c m h fe : Z) :
  reachable key w ->
  In (SuggestionRequest t f c m h fe) (sent w) ->
  t <> EmptyString /\ In f fieldOptions /\ JS.truthy_opt key = true.
Proof.
  intros Hreach Hin.
  destruct (reachable_asked key w Hreach) as (_ & _ & Hsent & _).
  now apply (Hsent t f c m h fe).
Qed.

(** X12: the review screen and the workbench are only ever reached after a
    suggestion request has been sent, and variables are only ever there
    after one has been sent: the wizard never moves, and never has a
    taxonomy, on its own. *)
Theorem taxonomy_needs_a_suggestion (key : option string) (w : World) :
  reachable key w ->
  step (ui w) <> step1 \/ variables (ui w) <> [] ->
  exists t f c m h fe, In (SuggestionRequest t f c m h fe) (sent w).
Proof.
  intros Hreach H.
  destruct (reachable_asked key w Hreach) as (_ & _ & _ & Hask).
  assert (Hex : existsb is_suggestion_request (sent w) = true)
    by (apply Hask; now right).
  apply existsb_exists in Hex. destruct Hex as ([t f c m h fe | p] & Hr & Hb).
  - now exists t, f, c, m, h, fe.
  - discriminate.
Qed.

Lemma suggestion_requests_well_formed_witness :
  reachable sampleKey reviewWorld
  /\ In (SuggestionRequest "digital economy"
           "发展经济学 (Development Economics)" 4 1 1 2)
       (sent reviewWorld)
  /\ "digital economy" <> EmptyString
  /\ JS.truthy_opt sampleKey = true.
Proof.
  assert (Hreach : reachable sampleKey reviewWorld).
  { apply (run_reachable sampleKey toReview (initial sampleKey));
      [apply reach_initial | vm_compute; reflexivity]. }
  assert (Hin : In (SuggestionRequest "digital economy"
                      "发展经济学 (Development Economics)" 4 1 1 2)
                  (sent reviewWorld))
    by (vm_compute; left; reflexivity).
  destruct (suggestion_requests_well_formed sampleKey reviewWorld
              _ _ _ _ _ _ Hreach Hin) as (Ht & _ & Hk).
  split; [exact Hreach|]. split; [exact Hin|]. split; [exact Ht | exact Hk].
Defined.

Lemma taxonomy_needs_a_suggestion_witness :
  reachable sampleKey returnedWorld
  /\ (step (ui returnedWorld) <> step1 \/ variables (ui returnedWorld) <> [])
  /\ exists t f c m h fe,
       In (SuggestionRequest t f c m h fe) (sent returnedWorld).
Proof.
  assert (Hreach : reachable sampleKey returnedWorld).
  { apply (run_reachable sampleKey (toReview ++ [ClickReturn])
             (initial sampleKey));
      [apply reach_initial | vm_compute; reflexivity]. }
  assert (H : step (ui returnedWorld) <> step1
              \/ variables (ui returnedWorld) <> [])
    by (right; vm_compute; discriminate).
  split; [exact Hreach|]. split; [exact H|].
  exact (taxonomy_needs_a_suggestion sampleKey returnedWorld Hreach H).
Defined.

(** ** The references of a request, under edits *)

Lemma role_names_set_at (r : Role) (f : VariableDef -> VariableDef) :
  (forall o, name (f o) = name o) ->
  (forall o, role (f o) = role o) ->
  forall (l : list VariableDef) (i : nat),
    role_names r (JS.set_at i f l) = role_names r l.
Proof.
  intros Hn Hr. induction l as [|a l IH]; intros [|i]; try reflexivity.
  - change (JS.set_at 0 f (a :: l)) with (f a :: l). simpl.
    now rewrite Hn, Hr.
  - change (JS.set_at (S i) f (a :: l)) with (a :: JS.set_at i f l). simpl.
    now rewrite IH.
Qed.

Lemma find_name_set_at (r : Role) (f : VariableDef -> VariableDef) :
  (forall o, name (f o) = name o) ->
  (forall o, role (f o) = role o) ->
  forall (l : list VariableDef) (i : nat),
    option_map name (find (has_role r) (JS.set_at i f l))
    = option_map name (find (has_role r) l).
Proof.
  intros Hn Hr. induction l as [|a l IH]; intros [|i]; try reflexivity.
  - change (JS.set_at 0 f (a :: l)) with (f a :: l). simpl.
    unfold has_role at 1 3. rewrite Hr.
    destruct (Role_eqb (role a) r); simpl; [now rewrite Hn | reflexivity].
  - change (JS.set_at (S i) f (a :: l)) with (a :: JS.set_at i f l). simpl.
    destruct (has_role r a); [reflexivity | apply IH].
Qed.

(** X13: the label of a variable is never part of a code request: changing
    a label, of whatever row, leaves the prompt of every method as it
    was. *)
Theorem relabel_keeps_the_request
  (v : VariableDef) (value : string) (s : State) (method subType : string) :
  prompt_of (changeLabel v value s) method subType
  = prompt_of s method subType.
Proof.
  unfold changeLabel.
  destruct (JS.findIndex _ _) as [index|]; [|reflexivity].
  unfold prompt_of, first_name. rewrite !joined_names_spaced.
  cbn [variables setVariables topic].
  rewrite !role_names_set_at by reflexivity.
  rewrite !find_name_set_at by reflexivity.
  reflexivity.
Qed.



Lemma role_names_app (r : Role) (a b : list VariableDef) :
  role_names r (a ++ b) = role_names r a ++ role_names r b.
Proof.
  induction a as [|v a IH]; simpl; [reflexivity|].
  destruct (Role_eqb (role v) r); simpl; now rewrite IH.
Qed.

(** X15: a new name reaches the next request: in a reachable world, after
    the name of a variable [v] of the taxonomy is changed, the names of its
    role are what they were with the new name in the place of the old one,
    and the names of every other role are untouched. *)
Theorem rename_reaches_the_request
  (key : option string) (w : World) (v : VariableDef) (value : string)
  (r : Role) :
  reachable key w ->
  In v (variables (ui w)) ->
  exists pre post,
    variables (ui w) = pre ++ v :: post
    /\ role_names (role v) (variables (ui w))
       = role_names (role v) pre ++ name v :: role_names (role v) post
    /\ role_names (role v) (variables (changeName v value (ui w)))
       = role_names (role v) pre ++ value :: role_names (role v) post
    /\ (r <> role v ->
        joined_names r (variables (changeName v value (ui w)))
        = joined_names r (variables (ui w))).
Proof.
  intros Hreach Hin.
  pose proof (reachable_distinct_objects _ _ _ Hreach) as Hnd.
  destruct (in_split _ _ Hin) as (pre & post & Hsplit).
  exists pre, post.
  assert (Hidx : JS.findIndex (fun item => same_object item v)
                   (variables (ui w)) = Some (length pre)).
  { rewrite Hsplit in *. now apply findIndex_same_object. }
  assert (Hself : Role_eqb (role v) (role v) = true)
    by now apply Role_eqb_eq.
  assert (Hnew : variables (changeName v value (ui w))
                 = pre ++ with_name value v :: post).
  { unfold changeName. rewrite Hidx. rewrite Hsplit at 1.
    now rewrite set_at_split. }
  split; [exact Hsplit|]. split; [|split].
  - rewrite Hsplit, role_names_app. simpl. now rewrite Hself.
  - rewrite Hnew, role_names_app. simpl. now rewrite Hself.
  - intros Hr. rewrite !joined_names_spaced, Hnew, Hsplit, !role_names_app.
    simpl. destruct (Role_eqb (role v) r) eqn:E; [|reflexivity].
    apply Role_eqb_eq in E. congruence.
Qed.

Lemma rename_reaches_the_request_witness :
  reachable sampleKey twinWorld
  /\ In (mkVariableDef 2 "pop" "" Control) (variables (ui twinWorld))
  /\ role_names Control
       (variables
          (changeName (mkVariableDef 2 "pop" "" Control) "density"
             (ui twinWorld)))
     = ["pop"; "density"]
  /\ exists pre post,
       variables (ui twinWorld)
       = pre ++ mkVariableDef 2 "pop" "" Control :: post
       /\ role_names Control
            (variables
               (changeName (mkVariableDef 2 "pop" "" Control) "density"
                  (ui twinWorld)))
          = role_names Control pre ++ "density" :: role_names Control post.
Proof.
  assert (Hreach : reachable sampleKey twinWorld).
  { apply (run_reachable sampleKey
             (toAwaitingSuggestions ++ [answered 0 twinControls])
             (initial sampleKey));
      [apply reach_initial | vm_compute; reflexivity]. }
  assert (Hin : In (mkVariableDef 2 "pop" "" Control)
                  (variables (ui twinWorld)))
    by (vm_compute; auto).
  split; [exact Hreach|]. split; [exact Hin|].
  split; [vm_compute; reflexivity|].
  destruct (rename_reaches_the_request sampleKey twinWorld
              (mkVariableDef 2 "pop" "" Control) "density" Y Hreach Hin)
    as (pre & post & Hsplit & _ & Hnew & _).
  exists pre, post. split; [exact Hsplit | exact Hnew].
Defined.

(** ** The review screen *)

Lemma sections_rows (items : list JSON) (keys : list string) :
  concat
    (map snd
       (flat_map
          (fun key =>
             match filter (has_key key) items with
             | [] => []
             | roleVars => [(getRoleLabel key, roleVars)]
             end)
          keys))
  = flat_map (fun key => filter (has_key key) items) keys.
Proof.
  induction keys as [|key keys IH]; [reflexivity|].
  cbn [flat_map]. rewrite map_app, concat_app, IH. f_equal.
  destruct (filter (has_key key) items); [reflexivity|].
  cbn [map concat snd]. apply app_nil_r.
Qed.

(** Two filters that never both accept split a list like their union. *)
Lemma filter_disjoint_union {A} (p q : A -> bool) (l : list A) :
  (forall a, p a = true -> q a = false) ->
  Permutation (filter p l ++ filter q l) (filter (fun a => p a || q a) l).
Proof.
  intros Hpq. induction l as [|a l IH]; [constructor|].
  simpl. destruct (p a) eqn:Hp; simpl.
  - rewrite (Hpq a Hp). now apply perm_skip.
  - destruct (q a); [|exact IH].
    apply Permutation_sym, Permutation_cons_app, Permutation_sym, IH.
Qed.

Lemma has_key_true (key : string) (v : JSON) :
  has_key key v = true <-> property "role" v = Some (Some (JString key)).
Proof.
  unfold has_key.
  destruct (property "role" v) as [[[]|]|]; split; intros H;
    try discriminate.
  - apply String.eqb_eq in H. now subst.
  - inversion H. apply String.eqb_refl.
Qed.

Lemma buckets_partition (items : list JSON) (keys : list string) :
  NoDup keys ->
  Permutation (flat_map (fun key => filter (has_key key) items) keys)
    (filter (fun v => existsb (fun key => has_key key v) keys) items).
Proof.
  induction 1 as [|key keys Hnotin Hnd IH].
  - simpl. induction items as [|v items IHv]; [constructor | exact IHv].
  - cbn [flat_map].
    apply Permutation_trans
      with (filter (has_key key) items
            ++ filter (fun v => existsb (fun key' => has_key key' v) keys)
                 items).
    + apply Permutation_app_head, IH.
    + apply (filter_disjoint_union (has_key key)).
      intros v Hv. apply has_key_true in Hv.
      destruct (existsb (fun key' => has_key key' v) keys) eqn:E;
        [|reflexivity].
      apply existsb_exists in E. destruct E as (key' & Hin & Heq).
      apply has_key_true in Heq. elim Hnotin. congruence.
Qed.

Lemma roleKeys_NoDup : NoDup roleKeys.
Proof.
  unfold roleKeys.
  repeat (constructor; [simpl; intuition discriminate|]). constructor.
Qed.

Lemma filter_all {A} (p : A -> bool) (l : list A) :
  (forall a, In a l -> p a = true) -> filter p l = l.
Proof.
  induction l as [|a l IH]; intros Hp; [reflexivity|].
  cbn [filter]. rewrite (Hp a (or_introl eq_refl)), IH; [reflexivity|].
  intros b Hb. apply Hp. now right.
Qed.

Lemma keyed_iff (v : JSON) :
  keyed v = true
  <-> exists key,
        In key roleKeys /\ property "role" v = Some (Some (JString key)).
Proof.
  unfold keyed. rewrite existsb_exists.
  split; intros (key & Hin & H); exists key; (split; [exact Hin|]);
    now apply has_key_true.
Qed.

Lemma no_null_iff (items : list JSON) :
  existsb is_null items = false <-> ~ In JNull items.
Proof.
  split.
  - intros H Hin.
    assert (E : existsb is_null items = true)
      by (apply existsb_exists; now exists JNull).
    congruence.
  - intros H. destruct (existsb is_null items) eqn:E; [|reflexivity].
    apply existsb_exists in E. destruct E as (v & Hin & Hv).
    destruct v; try discriminate. contradiction.
Qed.

Lemma reviewSections_array
  (items : list JSON) (secs : list (string * list JSON)) :
  reviewSections (JArray items) = Some secs ->
  ~ In JNull items
  /\ secs
     = flat_map
         (fun key =>
            match filter (has_key key) items with
            | [] => []
            | roleVars => [(getRoleLabel key, roleVars)]
            end)
         roleKeys.
Proof.
  cbn [reviewSections]. destruct (existsb is_null items) eqn:E;
    [discriminate|].
  intros H. inversion H. split; [now apply no_null_iff | reflexivity].
Qed.

Lemma shown_permutation
  (items : list JSON) (secs : list (string * list JSON)) :
  reviewSections (JArray items) = Some secs ->
  Permutation (concat (map snd secs)) (filter keyed items).
Proof.
  intros H. apply reviewSections_array in H. destruct H as [_ ->].
  rewrite sections_rows. apply buckets_partition, roleKeys_NoDup.
Qed.

Lemma in_reviewSections
  (items : list JSON) (secs : list (string * list JSON))
  (h : string) (b : list JSON) :
  reviewSections (JArray items) = Some secs ->
  In (h, b) secs ->
  exists key,
    In key roleKeys /\ h = getRoleLabel key
    /\ b = filter (has_key key) items /\ b <> [].
Proof.
  intros Hs H. apply reviewSections_array in Hs. destruct Hs as [_ ->].
  apply in_flat_map in H. destruct H as (key & Hkey & H).
  destruct (filter (has_key key) items) as [|v b'] eqn:E; [destruct H|].
  destruct H as [H|[]]. inversion H; subst.
  exists key. split; [exact Hkey|]. split; [reflexivity|].
  split; [now rewrite E | discriminate].
Qed.

Lemma json_of_keyed (v : VariableDef) : keyed (json_of v) = true.
Proof. destruct v as [rf nm lb r]. destruct r; reflexivity. Qed.

Lemma json_of_not_null (vars : list VariableDef) :
  existsb is_null (map json_of vars) = false.
Proof. induction vars as [|v vars IH]; [reflexivity | exact IH]. Qed.

(** X16: the review screen renders what was stored as the variables, which
    the code does not validate, exactly when that is an array none of whose
    items is [null].  It then shows exactly the items whose [role] is the
    text of one of the six role keys, each of them once: the rows of its
    sections, taken together, are a rearrangement of those items.  An item
    with any other role, or with none, has no row; when every item has one
    of the six roles, as the declared type has it and as holds of every
    state of the model, every item has its row.  No section is empty, and
    every row stands under the heading of its own role. *)
Theorem review_shows_each_variable_once (held : JSON) (s : State) :
  (reviewSections held <> None
   <-> exists items, held = JArray items /\ ~ In JNull items)
  /\ (forall items secs,
        held = JArray items -> reviewSections held = Some secs ->
        let shown := concat (map snd secs) in
        Permutation shown (filter keyed items)
        /\ (forall v,
              In v shown
              <-> In v items
                  /\ exists key,
                       In key roleKeys
                       /\ property "role" v = Some (Some (JString key)))
        /\ ((forall v, In v items -> keyed v = true) ->
            Permutation shown items)
        /\ (forall h b, In (h, b) secs -> b <> [])
        /\ (forall h b v,
              In (h, b) secs -> In v b ->
              exists key,
                property "role" v = Some (Some (JString key))
                /\ h = getRoleLabel key))
  /\ (exists secs,
        reviewSections (JArray (map json_of (variables s))) = Some secs
        /\ Permutation (concat (map snd secs))
             (map json_of (variables s))).
Proof.
  split; [|split].
  - split.
    + intros H. destruct held; try (now elim H).
      exists items. split; [reflexivity|].
      apply no_null_iff. cbn [reviewSections] in H.
      destruct (existsb is_null items); [now elim H | reflexivity].
    + intros (items & -> & Hnull). apply no_null_iff in Hnull.
      cbn [reviewSections]. rewrite Hnull. discriminate.
  - intros items secs -> Hs shown.
    pose proof (shown_permutation items secs Hs) as Hperm. fold shown in Hperm.
    split; [exact Hperm|]. split; [|split; [|split]].
    + intros v. split.
      * intros H. apply (Permutation_in _ Hperm) in H.
        apply filter_In in H. destruct H as [Hin Hk].
        split; [exact Hin | now apply keyed_iff].
      * intros [Hin Hk]. apply (Permutation_in _ (Permutation_sym Hperm)).
        apply filter_In. split; [exact Hin | now apply keyed_iff].
    + intros Hall. rewrite (filter_all keyed items Hall) in Hperm.
      exact Hperm.
    + intros h b H.
      now destruct (in_reviewSections items secs h b Hs H)
        as (key & _ & _ & _ & Hb).
    + intros h b v H Hv.
      destruct (in_reviewSections items secs h b Hs H)
        as (key & _ & -> & -> & _).
      apply filter_In in Hv. destruct Hv as (_ & Hk).
      exists key. split; [now apply has_key_true | reflexivity].
  - cbn [reviewSections]. rewrite json_of_not_null.
    eexists. split; [reflexivity|].
    rewrite sections_rows.
    apply Permutation_trans with (filter keyed (map json_of (variables s)));
      [apply buckets_partition, roleKeys_NoDup|].
    rewrite filter_all; [apply Permutation_refl|].
    intros a Ha. apply in_map_iff in Ha. destruct Ha as (x & <- & _).
    apply json_of_keyed.
Qed.

Lemma review_shows_each_variable_once_witness :
  reviewSections (JString "abc") = None
  /\ reviewSections (JArray [item "gdp" "GDP" "Y"; JNull]) = None
  /\ exists secs,
       reviewSections (JArray instrumented) = Some secs
       /\ map fst secs
          = ["被解释变量 (Dependent Variable)"; "固定效应变量 (Fixed Effects)"]
       /\ concat (map snd secs)
          = [item "gdp" "GDP" "Y"; item "year" "Year" "FixedEffect"]
       /\ Permutation (concat (map snd secs)) (filter keyed instrumented)
       /\ ~ In (item "rainfall" "Rainfall" "Instrument")
              (concat (map snd secs))
       /\ ~ In (JObject [("name", JString "wage")]) (concat (map snd secs)).
Proof.
  split; [reflexivity|]. split; [reflexivity|].
  destruct (review_shows_each_variable_once (JArray instrumented) panelState)
    as (_ & Hrows & _).
  assert (E : exists secs, reviewSections (JArray instrumented) = Some secs)
    by (eexists; vm_compute; reflexivity).
  destruct E as (secs & E). exists secs. split; [exact E|].
  destruct (Hrows instrumented secs eq_refl E) as (Hperm & Hshown & _).
  vm_compute in E. injection E as E.
  split; [now rewrite <- E|]. split; [now rewrite <- E|].
  split; [exact Hperm|].
  split; intros H; apply Hshown in H; destruct H as (_ & key & Hin & Hk);
    vm_compute in Hk; [|discriminate].
  injection Hk as <-. simpl in Hin. intuition discriminate.
Defined.

(** ** The first step of [highlight]: the code as HTML text *)

Lemma replace_all_app (c : ascii) (by_ a b : string) :
  replace_all c by_ (a ++ b)
  = (replace_all c by_ a ++ replace_all c by_ b)%string.
Proof.
  induction a as [|x a IH]; simpl; [reflexivity|].
  destruct (Ascii.eqb x c); simpl; rewrite IH; [|reflexivity].
  now rewrite append_assoc.
Qed.

Lemma occurs_app (c : ascii) (a b : string) :
  occurs c (a ++ b) = occurs c a || occurs c b.
Proof.
  induction a as [|x a IH]; simpl; [reflexivity|].
  rewrite IH. now rewrite orb_assoc.
Qed.

(** The three chained replacements act on each character on its own. *)
Lemma escaped_entities (text : string) : escaped text = entities text.
Proof.
  unfold escaped. induction text as [|a text IH]; [reflexivity|].
  cbn [replace_all entities]. unfold entity.
  destruct (Ascii.eqb a "&") eqn:E1.
  - rewrite !replace_all_app, IH. reflexivity.
  - cbn [replace_all]. destruct (Ascii.eqb a "<") eqn:E2.
    + rewrite !replace_all_app, IH. reflexivity.
    + cbn [replace_all]. destruct (Ascii.eqb a ">") eqn:E3.
      * now rewrite IH.
      * now rewrite IH.
Qed.

Lemma entity_cases (a : ascii) :
  (a = "&"%char /\ entity a = "&amp;")
  \/ (a = "<"%char /\ entity a = "&lt;")
  \/ (a = ">"%char /\ entity a = "&gt;")
  \/ (a <> "&"%char /\ a <> "<"%char /\ a <> ">"%char
      /\ entity a = String a EmptyString).
Proof.
  unfold entity.
  destruct (Ascii.eqb a "&") eqn:E1;
    [apply Ascii.eqb_eq in E1; auto|].
  destruct (Ascii.eqb a "<") eqn:E2;
    [apply Ascii.eqb_eq in E2; auto|].
  destruct (Ascii.eqb a ">") eqn:E3;
    [apply Ascii.eqb_eq in E3; auto 6|].
  apply Ascii.eqb_neq in E1, E2, E3. auto 8.
Qed.

(** X17: after the first step of [highlight] no angle bracket of the code
    is left: whatever the generated text, the HTML text holds no [<] and no
    [>], so the code cannot open or close a tag; and a code without [&],
    [<] and [>] is left as it is. *)
Theorem escaped_has_no_angle_bracket (text : string) :
  occurs "<" (escaped text) = false
  /\ occurs ">" (escaped text) = false
  /\ (occurs "&" text = false -> occurs "<" text = false ->
      occurs ">" text = false -> escaped text = text).
Proof.
  rewrite escaped_entities.
  split; [|split].
  - induction text as [|a text IH]; [reflexivity|].
    cbn [entities]. rewrite occurs_app, IH, orb_false_r.
    destruct (entity_cases a) as [[_ ->]|[[_ ->]|[[_ ->]|(_ & H & _ & ->)]]];
      try reflexivity.
    simpl. rewrite orb_false_r. now apply Ascii.eqb_neq.
  - induction text as [|a text IH]; [reflexivity|].
    cbn [entities]. rewrite occurs_app, IH, orb_false_r.
    destruct (entity_cases a) as [[_ ->]|[[_ ->]|[[_ ->]|(_ & _ & H & ->)]]];
      try reflexivity.
    simpl. rewrite orb_false_r. now apply Ascii.eqb_neq.
  - induction text as [|a text IH]; [reflexivity|].
    cbn [occurs entities]. intros H1 H2 H3.
    apply orb_false_elim in H1, H2, H3.
    destruct H1 as [E1 H1], H2 as [E2 H2], H3 as [E3 H3].
    rewrite (IH H1 H2 H3). unfold entity. now rewrite E1, E2, E3.
Qed.

Lemma escaped_has_no_angle_bracket_witness :
  escaped "gen z = (x < 3) & (y > 1)"
  = "gen z = (x &lt; 3) &amp; (y &gt; 1)"
  /\ occurs "<" (escaped "gen z = (x < 3) & (y > 1)") = false
  /\ occurs "&" "reg y x" = false
  /\ escaped "reg y x" = "reg y x".
Proof.
  split; [reflexivity|].
  split; [exact (proj1 (escaped_has_no_angle_bracket _))|].
  split; [reflexivity|].
  exact (proj2 (proj2 (escaped_has_no_angle_bracket "reg y x"))
           eq_refl eq_refl eq_refl).
Defined.

(** X18: the first step of [highlight] loses nothing: two codes that give
    the same HTML text are the same code. *)
Theorem escaped_injective (a b : string) :
  escaped a = escaped b -> a = b.
Proof.
  rewrite !escaped_entities. revert b.
  induction a as [|x a IH]; intros [|y b] H.
  - reflexivity.
  - exfalso. cbn [entities] in H.
    destruct (entity_cases y) as [[_ E]|[[_ E]|[[_ E]|(_ & _ & _ & E)]]];
      rewrite E in H; discriminate.
  - exfalso. cbn [entities] in H.
    destruct (entity_cases x) as [[_ E]|[[_ E]|[[_ E]|(_ & _ & _ & E)]]];
      rewrite E in H; discriminate.
  - cbn [entities] in H.
    destruct (entity_cases x)
      as [[Hx Ex]|[[Hx Ex]|[[Hx Ex]|(Hx1 & Hx2 & Hx3 & Ex)]]];
      destruct (entity_cases y)
        as [[Hy Ey]|[[Hy Ey]|[[Hy Ey]|(Hy1 & Hy2 & Hy3 & Ey)]]];
      rewrite Ex, Ey in H; simpl in H;
      try discriminate;
      try (injection H as H; f_equal; [congruence | now apply IH]);
      try (injection H as Hc H; congruence).
Qed.

Lemma escaped_injective_witness :
  escaped "x < 3" = escaped "x < 3" /\ "x < 3" = "x < 3".
Proof.
  split; [reflexivity|].
  exact (escaped_injective "x < 3" "x < 3" eq_refl).
Defined.

(** ** Headings and the project name *)

Lemma getRoleLabel_other (role : string) :
  (forall r, role <> role_text r) -> getRoleLabel role = role.
Proof.
  intros H. unfold getRoleLabel.
  destruct (String.eqb role "Y") eqn:E1;
    [apply String.eqb_eq in E1; elim (H Y E1)|].
  destruct (String.eqb role "X") eqn:E2;
    [apply String.eqb_eq in E2; elim (H X E2)|].
  destruct (String.eqb role "Control") eqn:E3;
    [apply String.eqb_eq in E3; elim (H Control E3)|].
  destruct (String.eqb role "Mechanism") eqn:E4;
    [apply String.eqb_eq in E4; elim (H Mechanism E4)|].
  destruct (String.eqb role "Hetero") eqn:E5;
    [apply String.eqb_eq in E5; elim (H Hetero E5)|].
  destruct (String.eqb role "FixedEffect") eqn:E6;
    [apply String.eqb_eq in E6; elim (H FixedEffect E6)|].
  reflexivity.
Qed.

Lemma role_key_dec (role : string) :
  (exists r, role = role_text r) \/ (forall r, role <> role_text r).
Proof.
  destruct (String.eqb role "Y") eqn:E1;
    [apply String.eqb_eq in E1; left; now exists Y|].
  destruct (String.eqb role "X") eqn:E2;
    [apply String.eqb_eq in E2; left; now exists X|].
  destruct (String.eqb role "Control") eqn:E3;
    [apply String.eqb_eq in E3; left; now exists Control|].
  destruct (String.eqb role "Mechanism") eqn:E4;
    [apply String.eqb_eq in E4; left; now exists Mechanism|].
  destruct (String.eqb role "Hetero") eqn:E5;
    [apply String.eqb_eq in E5; left; now exists Hetero|].
  destruct (String.eqb role "FixedEffect") eqn:E6;
    [apply String.eqb_eq in E6; left; now exists FixedEffect|].
  right. intros r Hr.
  apply String.eqb_neq in E1, E2, E3, E4, E5, E6.
  destruct r; simpl in Hr; congruence.
Qed.

(** X19: [getRoleLabel] gives the six roles six different headings, none of
    which is itself a role key; any text that is not a role key comes back
    unchanged; hence labelling twice is labelling once. *)
Theorem getRoleLabel_headings (role : string) (r1 r2 : Role) :
  (getRoleLabel (role_text r1) = getRoleLabel (role_text r2) -> r1 = r2)
  /\ getRoleLabel (role_text r1) <> role_text r2
  /\ ((forall r, role <> role_text r) -> getRoleLabel role = role)
  /\ getRoleLabel (getRoleLabel role) = getRoleLabel role.
Proof.
  split; [|split; [|split]].
  - destruct r1, r2; vm_compute; intros H; try reflexivity; discriminate.
  - destruct r1, r2; vm_compute; discriminate.
  - apply getRoleLabel_other.
  - destruct (role_key_dec role) as [(r & ->)|H].
    + destruct r; vm_compute; reflexivity.
    + now rewrite !(getRoleLabel_other role H).
Qed.

Lemma getRoleLabel_headings_witness :
  (forall r, "Instrument" <> role_text r)
  /\ getRoleLabel "Instrument" = "Instrument"
  /\ getRoleLabel "FixedEffect" = "固定效应变量 (Fixed Effects)".
Proof.
  assert (H : forall r, "Instrument" <> role_text r)
    by (intros r; destruct r; discriminate).
  split; [exact H|].
  split; [|reflexivity].
  exact (proj1 (proj2 (proj2 (getRoleLabel_headings "Instrument" Y Y))) H).
Defined.

(** X20: the project name of the toolbar is never longer than 23 code
    units: a topic of at most 20 is shown whole, a longer one is cut to its
    first 20 followed by three full stops.  A topic of 21 or 22 code units
    is therefore shown longer than it is; and cutting twice is cutting
    once. *)
Theorem projectTitle_bounds {unit : Type} (dot : unit) (topic : list unit) :
  length (projectTitle dot topic) <= 23
  /\ firstn 20 (projectTitle dot topic) = firstn 20 topic
  /\ (length topic <= 20 -> projectTitle dot topic = topic)
  /\ (20 < length topic -> length (projectTitle dot topic) = 23)
  /\ projectTitle dot (projectTitle dot topic) = projectTitle dot topic.
Proof.
  unfold projectTitle at 1 2 3 4.
  destruct (Nat.ltb_spec 20 (length topic)) as [Hlong|Hshort].
  - assert (Hlen : length (firstn 20 topic ++ [dot; dot; dot]) = 23).
    { rewrite length_app, firstn_length_le by lia. reflexivity. }
    assert (Hfirst : firstn 20 (firstn 20 topic ++ [dot; dot; dot])
                     = firstn 20 topic).
    { rewrite firstn_app, firstn_firstn, firstn_length_le by lia.
      cbn [Nat.min Nat.sub firstn]. apply app_nil_r. }
    split; [lia|]. split; [exact Hfirst|]. split; [|split].
    + lia.
    + intros _. exact Hlen.
    + unfold projectTitle.
      destruct (Nat.ltb_spec 20 (length topic)) as [_|H]; [|lia].
      rewrite Hlen. cbn [Nat.ltb Nat.leb]. now rewrite Hfirst.
  - split; [lia|]. split; [reflexivity|]. split; [|split].
    + reflexivity.
    + lia.
    + unfold projectTitle.
      destruct (Nat.ltb_spec 20 (length topic)) as [H|_]; [lia|].
      destruct (Nat.ltb_spec 20 (length topic)) as [H|_]; [lia|].
      reflexivity.
Qed.

Lemma projectTitle_bounds_witness :
  20 < length (repeat 1 21)
  /\ length (projectTitle 0 (repeat 1 21)) = 23
  /\ length (repeat 1 21) < length (projectTitle 0 (repeat 1 21)).
Proof.
  assert (H : 20 < length (repeat 1 21)) by (vm_compute; lia).
  destruct (projectTitle_bounds 0 (repeat 1 21)) as (_ & _ & _ & Hlen & _).
  split; [exact H|]. split; [exact (Hlen H)|].
  rewrite (Hlen H). vm_compute. lia.
Defined.


(** ** One suggestion at a time, and its notices *)

(** X21: at most one suggestion exchange is awaited at any time, and while
    it is, nothing else is awaited, the wizard is in step 1 and [loading] is
    true; code exchanges are awaited in step 3 only. *)
Theorem one_suggestion_at_a_time
  (key : option string) (w : World) (c : Call) :
  reachable key w ->
  In c (inflight w) ->
  (c = FetchCall ->
   inflight w = [FetchCall] /\ step (ui w) = step1 /\ loading (ui w) = true)
  /\ (c <> FetchCall -> step (ui w) = step3).
Proof.
  intros Hreach Hin.
  destruct (reachable_serialized key w Hreach) as [Hg Hf].
  split.
  - intros ->. destruct (Hf Hin) as (Hs & Hl & Hone). auto.
  - intros Hc. destruct (step (ui w)) eqn:Hs; [| |reflexivity];
      elim Hc; apply Hg; [congruence | exact Hin | congruence | exact Hin].
Qed.

Lemma one_suggestion_at_a_time_witness :
  reachable sampleKey awaitingWorld
  /\ In FetchCall (inflight awaitingWorld)
  /\ inflight awaitingWorld = [FetchCall]
  /\ step (ui awaitingWorld) = step1.
Proof.
  assert (Hreach : reachable sampleKey awaitingWorld).
  { apply (run_reachable sampleKey toAwaitingSuggestions
             (initial sampleKey));
      [apply reach_initial | vm_compute; reflexivity]. }
  assert (Hin : In FetchCall (inflight awaitingWorld))
    by (vm_compute; auto).
  destruct (one_suggestion_at_a_time sampleKey awaitingWorld FetchCall
              Hreach Hin) as (H & _).
  destruct (H eq_refl) as (Hone & Hs & _).
  split; [exact Hreach|]. split; [exact Hin|]. split; [exact Hone | exact Hs].
Defined.

Lemma fetchVariables_settled_alerts (r : Response) (json : Parsed) (w : World) :
  alerts (fetchVariables_settled r json w) = alerts w
  \/ alerts (fetchVariables_settled r json w) = failureNotice :: alerts w.
Proof.
  destruct r as [e|[text|]]; simpl; auto.
  unfold parse_text. destruct (JS.truthy_opt (Some text)); auto.
  destruct json as [e|[l|]]; simpl; auto.
Qed.

(** X22: every notice is the one text of [fetchVariables], and there is at
    most one for each suggestion request that has been answered: in a
    reachable world the notices shown, together with the suggestion
    exchange that may still be awaited, never outnumber the suggestion
    requests sent. *)
Theorem notices_answer_suggestions (key : option string) (w : World) :
  reachable key w ->
  Forall (eq failureNotice) (alerts w)
  /\ length (alerts w) + length (filter is_fetch_call (inflight w))
     <= length (filter is_suggestion_request (sent w)).
Proof.
  induction 1 as [|w e _ [IHa IHn] _ Hen]; [split; [constructor | simpl; lia]|].
  destruct e; cbn -[prompt_of]; try (split; assumption).
  - unfold fetchVariables.
    destruct (negb (JS.truthy (topic (ui w)))
              || negb (JS.truthy_opt (apiKey (ui w)))); [split; assumption|].
    split; [exact IHa|].
    cbn. rewrite filter_app, length_app. simpl. lia.
  - split; [exact IHa|].
    rewrite filter_app, length_app. simpl. lia.
  - destruct (nth_error (inflight w) i) as [[|]|] eqn:E;
      try (split; assumption).
    destruct (fetchVariables_settled_env r json (settle i w)) as (-> & ->).
    rewrite settle_inflight.
    rewrite (filter_remove_nth is_fetch_call _ i FetchCall E) in IHn.
    simpl in IHn.
    destruct (fetchVariables_settled_alerts r json (settle i w)) as [-> | ->];
      simpl; split; try assumption; try lia.
    constructor; [reflexivity | exact IHa].
  - destruct (nth_error (inflight w) i) as [[|meth t]|] eqn:E;
      try (split; assumption).
    rewrite (filter_remove_nth is_fetch_call _ i _ E) in IHn.
    destruct r as [err|text]; simpl in IHn |- *; split; try assumption; lia.
Qed.

Lemma notices_answer_suggestions_witness :
  reachable sampleKey
    (handle (SuggestionSettled 0 (Rejected "offline") (Data None))
       awaitingWorld)
  /\ alerts (handle (SuggestionSettled 0 (Rejected "offline") (Data None))
               awaitingWorld)
     = [failureNotice]
  /\ Forall (eq failureNotice)
       (alerts (handle (SuggestionSettled 0 (Rejected "offline") (Data None))
                  awaitingWorld)).
Proof.
  assert (Hreach : reachable sampleKey
                     (handle
                        (SuggestionSettled 0 (Rejected "offline") (Data None))
                        awaitingWorld)).
  { apply (run_reachable sampleKey
             (toAwaitingSuggestions
              ++ [SuggestionSettled 0 (Rejected "offline") (Data None)])
             (initial sampleKey));
      [apply reach_initial | vm_compute; reflexivity]. }
  split; [exact Hreach|]. split; [vm_compute; reflexivity|].
  exact (proj1 (notices_answer_suggestions sampleKey _ Hreach)).
Defined.
